(** * render-engine: pages and the attribute parser

    A shallow embedding of the two revisions of [render_engine/page.py]
    found in the repository:

    - [Legacy]  : src/render_engine/page.py (regex based [parse_content],
                  attributes assigned in [Page.__init__]);
    - [Current] : src/src/render_engine/page.py (parser class, [title],
                  [slug], [url], [markup] as properties, [_render_content]).

    A Python [str] is a list of characters.  Characters are the code points
    U+0000..U+00FF, one per value of [ascii]; the character classes below
    are the ones Python 3 uses on these code points. *)

From Stdlib Require Import Ascii String List Bool Arith Lia.
From stdpp Require Import gmap strings.
Import ListNotations.

Open Scope string_scope.
Open Scope list_scope.

Abbreviation str := (list ascii).
Coercion list_ascii_of_string : string >-> list.

(** ** Exceptions and results *)

Inductive exn : Type :=
  | IndexError
  | ValueError
  | AttributeError
  | TypeError
  | OSError
  | OutOfFuel.  (* not a Python exception: the model's scan ran out of steps *)

Inductive result (A : Type) : Type :=
  | Ok (a : A)
  | Raise (e : exn).
Arguments Ok {A} a.
Arguments Raise {A} e.

Definition bind {A B} (r : result A) (k : A -> result B) : result B :=
  match r with
  | Ok a => k a
  | Raise e => Raise e
  end.

Notation "'let*' x ':=' e 'in' k" := (bind e (fun x => k))
  (at level 10, x pattern, e at level 100, k at level 200).

(** ** Character classes *)

Definition code (c : ascii) : nat := nat_of_ascii c.

Definition between (lo hi : nat) (c : ascii) : bool :=
  Nat.leb lo (code c) && Nat.leb (code c) hi.

Definition newline : ascii := "010"%char.

(** [str.isspace] on one character: TAB..CR, FS..US, space, NEL, NBSP. *)
Definition is_space (c : ascii) : bool :=
  between 9 13 c || between 28 32 c || Nat.eqb (code c) 133 || Nat.eqb (code c) 160.

(** [str.isupper] on one character: A-Z and the Latin-1 capitals. *)
Definition is_upper (c : ascii) : bool :=
  between 65 90 c || between 192 214 c || between 216 222 c.

(** The class [\w] of [re] on [str] patterns: alphanumerics and [_]. *)
Definition is_word (c : ascii) : bool :=
  between 48 57 c || between 65 90 c || Nat.eqb (code c) 95 || between 97 122 c
  || Nat.eqb (code c) 170 || between 178 179 c || Nat.eqb (code c) 181
  || between 185 186 c || between 188 190 c
  || between 192 214 c || between 216 246 c || between 248 255 c.

Definition lower_char (c : ascii) : ascii :=
  if is_upper c then ascii_of_nat (code c + 32) else c.

(** ** String methods *)

(** [s.lower()] *)
Definition lower (s : str) : str := map lower_char s.

Fixpoint lstrip (s : str) : str :=
  match s with
  | c :: s' => if is_space c then lstrip s' else s
  | [] => []
  end.

Definition rstrip (s : str) : str := rev (lstrip (rev s)).

(** [s.strip()] *)
Definition strip (s : str) : str := rstrip (lstrip s).

(** [s.startswith(pre)] *)
Fixpoint startswith (pre s : str) : bool :=
  match pre, s with
  | [], _ => true
  | a :: pre', b :: s' => Ascii.eqb a b && startswith pre' s'
  | _ :: _, [] => false
  end.

(** [s[n:]] *)
Fixpoint drop_chars (n : nat) (s : str) {struct s} : str :=
  match s with
  | _ :: s' => match n with S k => drop_chars k s' | 0 => s end
  | [] => s
  end.

(** [sub in s] for two strings *)
Fixpoint contains (sub s : str) : bool :=
  startswith sub s ||
  match s with
  | [] => false
  | _ :: s' => contains sub s'
  end.

(** [s.split(sep)] for a non-empty [sep]; [cur] is the piece being read. *)
Fixpoint split_acc (sep cur s : str) {struct s} : list str :=
  match s with
  | [] => [cur]
  | c :: s' =>
      if startswith sep s
      then cur :: split_acc sep [] (drop_chars (length sep - 1) s')
      else split_acc sep (cur ++ [c]) s'
  end.

Definition split (sep s : str) : list str := split_acc sep [] s.

(** [s.split(sep, maxsplit=1)]: cut at the first [sep], if there is one. *)
Fixpoint split1_acc (sep cur s : str) : list str :=
  match s with
  | [] => [cur]
  | c :: s' =>
      if startswith sep s
      then [cur; drop_chars (length sep) s]
      else split1_acc sep (cur ++ [c]) s'
  end.

Definition split1 (sep s : str) : list str := split1_acc sep [] s.

(** [s.replace(old, new)] for one-character [old] and [new] *)
Definition replace (old new : ascii) (s : str) : str :=
  map (fun c => if Ascii.eqb c old then new else c) s.

(** ["\n".join(lines)], used to write multi-line texts *)
Fixpoint joinlines (lines : list string) : str :=
  match lines with
  | [] => []
  | [l] => l
  | l :: rest => l ++ newline :: joinlines rest
  end.

(** ** The regular expression [base_matcher] and [re.split] *)

Fixpoint span (p : ascii -> bool) (s : str) : str * str :=
  match s with
  | c :: s' =>
      if p c then let (a, b) := span p s' in (c :: a, b) else ([], s)
  | [] => ([], [])
  end.

(** [base_matcher = re.compile(r"(^\w+: \b.+$)", flags=re.M)], tried at the
    head of [s], a position where [^] holds (start of the text or just
    after a newline).  The result is the matched text and what follows it.

    - [\w+] is greedy; giving a character back leaves a word character
      where [:] is required, so only the longest run can match;
    - [\b] stands between the space and the next character, which
      therefore has to exist and be a word character;
    - [.+] takes every character up to the next newline, and [$] (with
      [re.M]) holds just there: before a newline or at the end. *)
Definition base_matcher (s : str) : option (str * str) :=
  let (key, after_key) := span is_word s in
  match key, after_key with
  | _ :: _, c1 :: c2 :: ((c :: _) as value) =>
      if Ascii.eqb c1 ":" && Ascii.eqb c2 " " && is_word c
      then let (line, rest) := span (fun x => negb (Ascii.eqb x newline)) value in
           Some (key ++ ": " ++ line, rest)
      else None
  | _, _ => None
  end.

(** [re.split(base_matcher, s)]: the scan goes left to right; [bol] tells
    whether [^] holds at the head of [s], [chunk] is the text read since the
    last match.  The pattern has one group, so each match is returned
    between the pieces it separates. *)
Fixpoint split_from (fuel : nat) (bol : bool) (chunk s : str)
  : option (list str) :=
  match fuel with
  | 0 => None
  | S fuel' =>
      match (if bol then base_matcher s else None) with
      | Some (m, rest) =>
          match split_from fuel' false [] rest with
          | Some l => Some (chunk :: m :: l)
          | None => None
          end
      | None =>
          match s with
          | [] => Some [chunk]
          | c :: s' => split_from fuel' (Ascii.eqb c newline) (chunk ++ [c]) s'
          end
      end
  end.

Definition re_split (s : str) : option (list str) :=
  split_from (S (length s)) true [] s.

(** Whether the scan of [s] meets a match of [base_matcher]: at the head
    of [s] when [bol] holds, or later, just after a newline. *)
Fixpoint has_header (bol : bool) (s : str) : bool :=
  (bol && match base_matcher s with Some _ => true | None => false end)
  || match s with
     | [] => false
     | c :: s' => has_header (Ascii.eqb c newline) s'
     end.

(** [l.pop()] *)
Definition pop {A} (l : list A) : result (list A * A) :=
  match rev l with
  | [] => Raise IndexError
  | x :: r => Ok (rev r, x)
  end.

(** Truth value of a string *)
Definition nonempty (s : str) : bool :=
  match s with [] => false | _ :: _ => true end.

(** [re.sub(r'[!\[\]\(\)]', '', s)] *)
Definition is_slug_punct (c : ascii) : bool :=
  Ascii.eqb c "!" || Ascii.eqb c "[" || Ascii.eqb c "]"
  || Ascii.eqb c "(" || Ascii.eqb c ")".

Definition re_sub_punct (s : str) : str :=
  List.filter (fun c => negb (is_slug_punct c)) s.

(** ** Values held by attributes *)

Inductive value : Type :=
  | VNone
  | VBool (b : bool)
  | VStr (s : str)
  | VList (l : list str).

(** Truth value, as [if v] and [v or w] take it *)
Definition truthy (v : value) : bool :=
  match v with
  | VNone => false
  | VBool b => b
  | VStr s => nonempty s
  | VList l => match l with [] => false | _ :: _ => true end
  end.

(** [x in container] *)
Definition py_in (x : str) (container : value) : result bool :=
  match container with
  | VList l => Ok (bool_decide (x ∈ l))
  | VStr s => Ok (contains x s)
  | VNone | VBool _ => Raise TypeError
  end.

(** [container[0]], formatted into an f-string *)
Definition first_item (container : value) : result str :=
  match container with
  | VList (x :: _) => Ok x
  | VStr (c :: _) => Ok [c]
  | VList [] | VStr [] => Raise IndexError
  | VNone | VBool _ => Raise TypeError
  end.

(** * The first revision: src/render_engine/page.py *)

Module Legacy.

(** [parse_content(content, matcher=base_matcher)] with the default
    matcher. *)
Definition parse_content (content : str) : result (list str * str) :=
  match re_split content with
  | None => Raise OutOfFuel
  | Some parsed_content =>
      let* (parsed_content, last) := pop parsed_content in
      let content := strip last in
      let attrs := List.filter (fun x => nonempty (strip x)) parsed_content in
      Ok (attrs, content)
  end.

(** The body that [parse_content] returns *)
Definition parsed_body (text : str) : result str :=
  let* (_, body) := parse_content text in Ok body.

(** A page class: its [__name__] and the plain attributes defined by the
    class body and its bases.  The properties [content] and [html] of
    [Page] are not part of [cls_dict]; they are taken as never overridden. *)
Record PageClass : Type := {
  cls_name : str;
  cls_dict : gmap str value
}.

(** The attributes of the class [Page] itself:
    [engine = ""], [template = ""], [routes = [""]], [list_attrs = ['tags']]. *)
Definition base_dict : gmap str value :=
  <[("engine" : str) := VStr ""]>
  (<[("template" : str) := VStr ""]>
  (<[("routes" : str) := VList [([] : str)]]>
  (<[("list_attrs" : str) := VList [("tags" : str)]]> ∅))).

Definition Page_class : PageClass :=
  {| cls_name := "Page"; cls_dict := base_dict |}.

(** [class name(Page): k = v ...] *)
Definition subclass (name : str) (body : gmap str value) : PageClass :=
  {| cls_name := name; cls_dict := body ∪ base_dict |}.

(** An instance: its class and its [__dict__]. *)
Record Page : Type := {
  page_class : PageClass;
  page_dict : gmap str value
}.

(** [getattr(self, n, None)] for a name that is not a property *)
Definition getattr (self : Page) (n : str) : option value :=
  match page_dict self !! n with
  | Some v => Some v
  | None => cls_dict (page_class self) !! n
  end.

Definition hasattr (self : Page) (n : str) : bool :=
  match getattr self n with Some _ => true | None => false end.

(** [self.n] *)
Definition attribute (self : Page) (n : str) : result value :=
  match getattr self n with
  | Some v => Ok v
  | None => Raise AttributeError
  end.

Definition store (self : Page) (n : str) (v : value) : Page :=
  {| page_class := page_class self; page_dict := <[n := v]> (page_dict self) |}.

(** [setattr(self, n, v)].  [content] and [html] are properties without a
    setter and [__weakref__] is read-only; [__class__] and [__dict__] take
    a class and a dict only. *)
Definition setattr (self : Page) (n : str) (v : value) : result Page :=
  if bool_decide (n ∈ [("content" : str); ("html" : str); ("__weakref__" : str)])
  then Raise AttributeError
  else if bool_decide (n ∈ [("__class__" : str); ("__dict__" : str)])
  then Raise TypeError
  else Ok (store self n v).

(** The body of [for attr in valid_attrs] in [Page.__init__] *)
Definition set_attr (self : Page) (attr : str) : result Page :=
  match split1 ": " attr with
  | [name; value] =>
      let* list_attrs := attribute self "list_attrs" in
      let* listed := py_in (lower name) list_attrs in
      let value :=
        if listed then VList (map lower (split ", " value))
        else VStr (strip value) in
      setattr self (lower name) value
  | _ => Raise ValueError
  end.

Fixpoint set_attrs (self : Page) (valid_attrs : list str) : result Page :=
  match valid_attrs with
  | [] => Ok self
  | attr :: rest => let* self := set_attr self attr in set_attrs self rest
  end.

(** The attribute name under which the loop stores [attr] *)
Definition attr_name (attr : str) : option str :=
  match split1 ": " attr with
  | [name; _] => Some (lower name)
  | _ => None
  end.

Section Init.

(** [Path(p).read_text()] and [markdown.markdown] *)
Variable read_text : str -> result str.
Variable markdown : str -> str.

(** The choice of the text to parse, at the top of [Page.__init__] *)
Definition resolve_content (self : Page) (content_path : option str)
    (content : str) : result str :=
  match getattr self "content_path" with
  | Some (VStr path) => read_text path
  | Some _ => Raise TypeError
  | None =>
      match content_path with
      | Some path => if nonempty path then read_text path else Ok content
      | None => Ok content
      end
  end.

(** The list [valid_attrs] that [Page.__init__] iterates over *)
Definition Page_attrs (cls : PageClass) (content_path : option str)
    (content : str) (no_index : bool) : result (list str) :=
  let self := {| page_class := cls; page_dict := ∅ |} in
  let* self := setattr self "no_index" (VBool no_index) in
  let* content := resolve_content self content_path content in
  let* (valid_attrs, _) := parse_content content in
  Ok valid_attrs.

(** The property [html] *)
Definition Page_html (self : Page) : result str :=
  let* c := attribute self "_content" in
  match c with
  | VStr s => Ok (markdown s)
  | _ => Raise AttributeError
  end.

(** The property [content] *)
Definition Page_content (self : Page) : result str :=
  let* c := attribute self "_content" in
  if truthy c then Page_html self else Ok [].

(** [getattr(self, 'name', None) or self.__class__.__name__] *)
Definition name_or_class (self : Page) : value :=
  match getattr self "name" with
  | Some v => if truthy v then v else VStr (cls_name (page_class self))
  | None => VStr (cls_name (page_class self))
  end.

(** [Page.__init__(self, content_path, content, matcher=base_matcher,
    no_index)] on a fresh instance of [cls] *)
Definition Page_init (cls : PageClass) (content_path : option str)
    (content : str) (no_index : bool) : result Page :=
  let self := {| page_class := cls; page_dict := ∅ |} in
  let* self := setattr self "no_index" (VBool no_index) in
  let* content := resolve_content self content_path content in
  let* (valid_attrs, body) := parse_content content in
  let* self := setattr self "_content" (VStr body) in
  let* self := set_attrs self valid_attrs in
  let* self :=
    (if hasattr self "title" then Ok self
     else setattr self "title" (name_or_class self)) in
  let* self :=
    (if hasattr self "slug" then Ok self
     else let* t := attribute self "title" in setattr self "slug" t) in
  let* slug := attribute self "slug" in
  match slug with
  | VStr s =>
      let _slug := replace " " "_" (lower s) in
      let slug := re_sub_punct _slug in
      let* self := setattr self "slug" (VStr slug) in
      let* _ := Page_content self in
      let* routes := attribute self "routes" in
      let* route := first_item routes in
      setattr self "url" (VStr (route ++ "/" ++ slug))
  | _ => Raise AttributeError
  end.

End Init.

(** [Page.__str__]: [return self.slug] *)
Definition Page_str (self : Page) : result value := attribute self "slug".

End Legacy.

(** * The second revision: src/src/render_engine/page.py *)

Module Current.

(** A [jinja2.Environment] and a [jinja2.Template]: objects of the
    library, known by a handle only. *)
Inductive Env : Type := Environment (id : nat).
Inductive Template : Type := TemplateObject (id : nat).

Section Externals.

(** What the module imports: [slugify.slugify], the three static methods
    of [BasePageParser] ([parse_content_path], [parse_content], [markup]),
    and [jinja2] with [Environment.get_template] and [Template.render]. *)
Variable slugify : str -> str.
Variable get_template : Env -> value -> result Template.
Variable render : Template -> gmap str value -> result str.

(** A page class: its [__name__], the plain attributes of the class body
    and its bases, and the two attributes that are not plain values. *)
Record PageClass : Type := {
  cls_name : str;
  cls_dict : gmap str value;
  cls_engine : option Env;
  cls_template_vars : option (gmap str value)
}.

(** The attributes the class [Page] gives a value:
    [extension = ".html"], [reference = "slug"], [routes = ["./"]],
    [invalid_attrs = ["slug"]].  [content], [content_path], [engine] and
    [template] are annotations only. *)
Definition base_dict : gmap str value :=
  <[("extension" : str) := VStr ".html"]>
  (<[("reference" : str) := VStr "slug"]>
  (<[("routes" : str) := VList [("./" : str)]]>
  (<[("invalid_attrs" : str) := VList [("slug" : str)]]> ∅))).

Definition Page_class : PageClass :=
  {| cls_name := "Page"; cls_dict := base_dict;
     cls_engine := None; cls_template_vars := None |}.

Record Page : Type := {
  page_class : PageClass;
  page_dict : gmap str value
}.

Variable parse_content_path : value -> result str.
Variable parse_content : value -> result (list (str * value) * str).
Variable parser_markup : Page -> value -> result str.

(** [getattr(self, n, None)] for a name that is not a property *)
Definition getattr (self : Page) (n : str) : option value :=
  match page_dict self !! n with
  | Some v => Some v
  | None => cls_dict (page_class self) !! n
  end.

Definition hasattr (self : Page) (n : str) : bool :=
  match getattr self n with Some _ => true | None => false end.

(** [self.n] *)
Definition attribute (self : Page) (n : str) : result value :=
  match getattr self n with
  | Some v => Ok v
  | None => Raise AttributeError
  end.

Definition store (self : Page) (n : str) (v : value) : Page :=
  {| page_class := page_class self; page_dict := <[n := v]> (page_dict self) |}.

(** [slugify(v)]: the library decodes anything that is not a [str] as
    bytes, which fails on the other values. *)
Definition py_slugify (v : value) : result str :=
  match v with
  | VStr s => Ok (slugify s)
  | _ => Raise TypeError
  end.

(** [setattr(self, n, v)]: [title] and [slug] have setters; [url],
    [_extension], [to_dict] and [markup] are properties without one. *)
Definition setattr (self : Page) (n : str) (v : value) : result Page :=
  if bool_decide (n = ("title" : str)) then Ok (store self "_title" v)
  else if bool_decide (n = ("slug" : str)) then
    let* s := py_slugify v in Ok (store self "_slug" (VStr s))
  else if bool_decide (n ∈ [("url" : str); ("_extension" : str);
                            ("to_dict" : str); ("markup" : str);
                            ("__weakref__" : str)])
  then Raise AttributeError
  else if bool_decide (n ∈ [("__class__" : str); ("__dict__" : str)])
  then Raise TypeError
  else Ok (store self n v).

(** [getattr(self, "list_attrs", [])] *)
Definition list_attrs (self : Page) : value :=
  match getattr self "list_attrs" with
  | Some v => v
  | None => VList []
  end.

(** The body of [for name, value in attrs.items()] *)
Definition set_attr (invalid_attrs : value) (self : Page)
    (item : str * value) : result Page :=
  let (name, value) := item in
  let name := lower name in
  let* reserved := py_in name invalid_attrs in
  let name := if reserved then "_" ++ name else name in
  let* listed := py_in name (list_attrs self) in
  let* value :=
    (if listed then
       match value with
       | VStr s => Ok (VList (map lower (split ", " s)))
       | _ => Raise AttributeError
       end
     else Ok value) in
  setattr self name value.

Fixpoint set_attrs (invalid_attrs : value) (self : Page)
    (attrs : list (str * value)) : result Page :=
  match attrs with
  | [] => Ok self
  | item :: rest =>
      let* self := set_attr invalid_attrs self item in
      set_attrs invalid_attrs self rest
  end.

(** [a or b] on an optional argument and an attribute *)
Definition or_attr (arg : option str) (attr : option value) : value :=
  match arg with
  | Some s => if nonempty s then VStr s
              else match attr with Some v => v | None => VNone end
  | None => match attr with Some v => v | None => VNone end
  end.

(** [Page.__init__(self, content=None, content_path=None)] on a fresh
    instance of [cls] *)
Definition Page_init (cls : PageClass) (content content_path : option str)
    : result Page :=
  let self := {| page_class := cls; page_dict := ∅ |} in
  let content_path := or_attr content_path (getattr self "content_path") in
  let* content :=
    (if truthy content_path
     then let* c := parse_content_path content_path in Ok (Some c)
     else Ok content) in
  let content := or_attr content (getattr self "content") in
  let* (attrs, self) :=
    (if truthy content
     then let* (attrs, body) := parse_content content in
          let* self := setattr self "content" (VStr body) in
          Ok (attrs, self)
     else Ok ([], self)) in
  let* invalid_attrs := attribute self "invalid_attrs" in
  let invalid_attrs := if truthy invalid_attrs then invalid_attrs else VList [] in
  set_attrs invalid_attrs self attrs.

(** The property [title] *)
Definition title (self : Page) : value :=
  match getattr self "_title" with
  | None => VStr (cls_name (page_class self))
  | Some t => t
  end.

(** The property [slug]; reading it may store [_slug]. *)
Definition slug (self : Page) : result (str * Page) :=
  let self := if hasattr self "_slug" then self
              else store self "_slug" (title self) in
  let* _slug := attribute self "_slug" in
  let* s := py_slugify _slug in
  Ok (s, self).

(** The property [_extension] *)
Definition _extension (self : Page) : result str :=
  let* extension := attribute self "extension" in
  match extension with
  | VStr e => if negb (startswith "." e) then Ok ("." ++ e) else Ok e
  | _ => Raise AttributeError
  end.

(** The property [url] *)
Definition url (self : Page) : result (str * Page) :=
  let* (s, self) := slug self in
  let* e := _extension self in
  Ok (s ++ e, self).

(** The property [to_dict]; later entries replace earlier ones.  A
    [template_vars] attribute of the page itself is unpacked with [**]: no
    [value] is a mapping, and on each of them the unpacking raises. *)
Definition to_dict (self : Page) : result (gmap str value * Page) :=
  let vars := page_dict self in
  let* template_vars :=
    match page_dict self !! ("template_vars" : str) with
    | Some _ => Raise TypeError
    | None =>
        match cls_template_vars (page_class self) with
        | Some d => Ok d
        | None => Ok ∅
        end
    end in
  let t := title self in
  let* (s, self) := slug self in
  Ok (<[("slug" : str) := VStr s]>
        (<[("title" : str) := t]> (template_vars ∪ vars)), self).

(** The property [markup]: [None] when there is no [content]. *)
Definition markup (self : Page) : result (option str) :=
  match getattr self "content" with
  | Some c => let* m := parser_markup self c in Ok (Some m)
  | None => Ok None
  end.

(** What [engine] is bound to after
    [engine = getattr(self, "engine", engine)] *)
Inductive engine_value : Type :=
  | NoEngine
  | Engine (e : Env)
  | NotEngine (v : value).

Definition getattr_engine (self : Page) (engine : option Env) : engine_value :=
  match page_dict self !! ("engine" : str) with
  | Some v => NotEngine v
  | None =>
      match cls_engine (page_class self) with
      | Some e => Engine e
      | None => match engine with Some e => Engine e | None => NoEngine end
      end
  end.

Definition engine_truthy (e : engine_value) : bool :=
  match e with
  | NoEngine => false
  | Engine _ => true
  | NotEngine v => truthy v
  end.

(** [engine.get_template(template)] *)
Definition engine_get_template (e : engine_value) (template : value)
    : result Template :=
  match e with
  | Engine e => get_template e template
  | _ => Raise AttributeError
  end.

Definition option_value (o : option str) : value :=
  match o with Some s => VStr s | None => VNone end.

(** [Page._render_content(self, engine=None, **kwargs)] *)
Definition _render_content (self : Page) (engine : option Env)
    (kwargs : gmap str value) : result (option str) :=
  let engine := getattr_engine self engine in
  let* template := attribute self "template" in
  if truthy template && engine_truthy engine then
    if hasattr self "content" then
      let* t := engine_get_template engine template in
      let* (d, self) := to_dict self in
      let* m := markup self in
      let* out :=
        render t (kwargs ∪ <[("content" : str) := option_value m]> d) in
      Ok (Some out)
    else
      let* t := engine_get_template engine template in
      let* (d, self) := to_dict self in
      let* out := render t (kwargs ∪ d) in
      Ok (Some out)
  else if hasattr self "content" then markup self
  else Raise ValueError.

(** [Page.__str__]: [return self.slug] *)
Definition Page_str (self : Page) : result (str * Page) := slug self.

End Externals.

End Current.


(** * Sample environments

    Stand-ins for the file system and the libraries, to run the
    definitions on concrete pages. *)

Definition no_files : str -> result str := fun _ => Raise OSError.

Definition plain_markdown : str -> str := fun s => s.

(** The page that the first revision builds from [text], without files *)
Definition legacy_page (cls : Legacy.PageClass) (text : str) : Legacy.Page :=
  match Legacy.Page_init no_files plain_markdown cls None text false with
  | Ok p => p
  | Raise _ => {| Legacy.page_class := cls; Legacy.page_dict := ∅ |}
  end.

(** [class BlogPost(Page): name = "Blog"] *)
Definition BlogPost : Legacy.PageClass :=
  Legacy.subclass "BlogPost" (<[("name" : str) := VStr "Blog"]> ∅).

(** Stand-ins for [slugify] and for the parser class *)
Definition sample_slugify (s : str) : str := replace " " "-" (lower s).

Definition sample_markup (self : Current.Page) (content : value)
  : result str :=
  match content with
  | VStr s => Ok s
  | _ => Raise TypeError
  end.

(** [Page()] of the second revision: no argument, the class [Page] itself *)
Definition bare_page : Current.Page :=
  {| Current.page_class := Current.Page_class; Current.page_dict := ∅ |}.

(** [class Dotted(Page): extension = "..html"] *)
Definition Dotted : Current.PageClass :=
  {| Current.cls_name := "Dotted";
     Current.cls_dict :=
       <[("extension" : str) := VStr "..html"]> Current.base_dict;
     Current.cls_engine := None;
     Current.cls_template_vars := None |}.




(** * Notions used to state properties *)

(** The characters of [s] that are not whitespace, in order *)
Definition ink (s : str) : str := List.filter (fun c => negb (is_space c)) s.

(** [h] is, from its first to its last character, one match of
    [base_matcher]. *)
Definition header_line (h : str) : Prop := base_matcher h = Some (h, []).

(** The header lines [hs], one per line, followed by [rest] *)
Fixpoint header_block (hs : list str) (rest : str) : str :=
  match hs with
  | [] => rest
  | [h] => h ++ rest
  | h :: hs' => h ++ newline :: header_block hs' rest
  end.

(** What the first revision makes of the text of a slug *)
Definition slug_text (s : str) : str :=
  re_sub_punct (replace " " "_" (lower s)).

(** Names that [setattr] refuses on a page of the first revision *)
Definition legacy_read_only : list str :=
  [("content" : str); ("html" : str); ("__weakref__" : str);
   ("__class__" : str); ("__dict__" : str)].


(** More stand-ins: a parser class that finds no file and parses nothing,
    an engine with one template, and a template that prints its
    [content]. *)
Definition no_content_path (path : value) : result str := Raise OSError.

Definition no_content_parser (content : value)
  : result (list (str * value) * str) := Raise ValueError.

Definition one_template (e : Current.Env) (template : value)
  : result Current.Template := Ok (Current.TemplateObject 0).

Definition content_render (t : Current.Template) (context : gmap str value)
  : result str :=
  match context !! ("content" : str) with
  | Some (VStr s) => Ok s
  | _ => Ok []
  end.

(** [class Article(Page): template = "page.html"], with a body *)
Definition Article : Current.PageClass :=
  {| Current.cls_name := "Article";
     Current.cls_dict :=
       <[("template" : str) := VStr "page.html"]> Current.base_dict;
     Current.cls_engine := Some (Current.Environment 0);
     Current.cls_template_vars := None |}.

Definition article : Current.Page :=
  {| Current.page_class := Article;
     Current.page_dict := <[("content" : str) := VStr "Body"]> ∅ |}.

(** A wider alphabet: the code points U+0000..U+00FF and U+03D2, GREEK
    UPSILON WITH HOOK SYMBOL, a letter for which [str.isupper] holds and
    that [str.lower] returns as it is. *)
Inductive wchar : Type :=
  | Narrow (c : ascii)
  | UpsilonHook.

Definition wchar_lower (u : wchar) : wchar :=
  match u with
  | Narrow c => Narrow (lower_char c)
  | UpsilonHook => UpsilonHook
  end.


(** The slug derivation of the first revision,
    [re.sub(r'[!\[\]\(\)]', '', s.lower().replace(" ", "_"))],
    on the wider alphabet *)
Definition wide_slug_text (s : list wchar) : list wchar :=
  List.filter
    (fun u => match u with
              | Narrow c => negb (is_slug_punct c)
              | UpsilonHook => true
              end)
    (map (fun u => match u with
                   | Narrow c => Narrow (if Ascii.eqb c " " then "_"%char else c)
                   | UpsilonHook => UpsilonHook
                   end)
         (map wchar_lower s)).



(** * Properties *)

(** ** Strings *)

Lemma lstrip_suffix (s : str) : exists ws, s = ws ++ lstrip s.
Proof.
  induction s as [|c s IH]; simpl.
  - exists []. reflexivity.
  - destruct (is_space c).
    + destruct IH as [ws Hws]. exists (c :: ws). simpl. congruence.
    + exists []. reflexivity.
Qed.

Lemma lstrip_head (s : str) :
  match lstrip s with [] => True | c :: _ => is_space c = false end.
Proof.
  induction s as [|c s IH]; simpl; [exact I|].
  destruct (is_space c) eqn:E; [exact IH | exact E].
Qed.

Lemma lstrip_fix (s : str) :
  match s with [] => True | c :: _ => is_space c = false end -> lstrip s = s.
Proof.
  destruct s as [|c s]; simpl; [reflexivity|]. intros ->. reflexivity.
Qed.

Lemma lstrip_idem (s : str) : lstrip (lstrip s) = lstrip s.
Proof. apply lstrip_fix, lstrip_head. Qed.

Lemma lstrip_snoc (u : str) (c : ascii) :
  is_space c = false -> lstrip (u ++ [c]) = lstrip u ++ [c].
Proof.
  intros Hc. induction u as [|a u IH]; simpl.
  - rewrite Hc. reflexivity.
  - destruct (is_space a); [exact IH | reflexivity].
Qed.

Lemma rstrip_prefix (s : str) : exists ws, s = rstrip s ++ ws.
Proof.
  unfold rstrip. destruct (lstrip_suffix (rev s)) as [ws Hws].
  exists (rev ws). rewrite <- rev_app_distr, <- Hws, rev_involutive.
  reflexivity.
Qed.

Lemma rstrip_idem (s : str) : rstrip (rstrip s) = rstrip s.
Proof. unfold rstrip. rewrite rev_involutive, lstrip_idem. reflexivity. Qed.

Lemma rstrip_cons (c : ascii) (s : str) :
  is_space c = false -> rstrip (c :: s) = c :: rstrip s.
Proof.
  intros Hc. unfold rstrip. simpl rev at 2.
  rewrite lstrip_snoc by exact Hc. rewrite rev_app_distr. reflexivity.
Qed.

Lemma strip_idem (s : str) : strip (strip s) = strip s.
Proof.
  unfold strip. pose proof (lstrip_head s) as Hh.
  destruct (lstrip s) as [|c t] eqn:E.
  - reflexivity.
  - rewrite (rstrip_cons c t Hh). simpl lstrip. rewrite Hh.
    rewrite (rstrip_cons c _ Hh). rewrite rstrip_idem. reflexivity.
Qed.

(** ** The matcher and the scan *)

Lemma span_app (p : ascii -> bool) (s a b : str) :
  span p s = (a, b) -> s = a ++ b.
Proof.
  revert a b. induction s as [|c s IH]; simpl; intros a b H.
  - inversion H. reflexivity.
  - destruct (p c).
    + destruct (span p s) as [a' b'] eqn:E. inversion H; subst.
      simpl. f_equal. apply IH. reflexivity.
    + inversion H. reflexivity.
Qed.

Lemma span_rest (p : ascii -> bool) (s a b : str) :
  span p s = (a, b) -> match b with [] => True | c :: _ => p c = false end.
Proof.
  revert a b. induction s as [|c s IH]; simpl; intros a b H.
  - inversion H. exact I.
  - destruct (p c) eqn:Ec.
    + destruct (span p s) as [a' b'] eqn:E. inversion H; subst.
      eapply IH. reflexivity.
    + inversion H; subst. exact Ec.
Qed.

Lemma span_extend (p : ascii -> bool) (s x a b : str) (c : ascii) :
  span p s = (a, c :: b) -> span p (s ++ x) = (a, c :: b ++ x).
Proof.
  revert a. induction s as [|d s IH]; simpl; intros a H.
  - discriminate.
  - destruct (p d) eqn:Ed.
    + destruct (span p s) as [a' b'] eqn:E. inversion H; subst.
      rewrite (IH a' eq_refl). reflexivity.
    + inversion H; subst. reflexivity.
Qed.

Lemma base_matcher_some (s m rest : str) :
  base_matcher s = Some (m, rest) ->
  s = m ++ rest /\ m <> [] /\
  match rest with [] => True | c :: _ => c = newline end.
Proof.
  unfold base_matcher. destruct (span is_word s) as [key after] eqn:Ek.
  destruct key as [|k key]; [discriminate|].
  destruct after as [|c1 [|c2 [|c value]]]; try discriminate.
  destruct (Ascii.eqb c1 ":" && Ascii.eqb c2 " " && is_word c) eqn:Ec;
    [|discriminate].
  apply andb_prop in Ec as [Ec Hw]. apply andb_prop in Ec as [E1 E2].
  apply Ascii.eqb_eq in E1, E2. subst c1 c2.
  destruct (span _ (c :: value)) as [line r] eqn:El.
  intros H. inversion H; subst. clear H.
  split; [|split].
  - apply span_app in Ek, El. rewrite Ek, El.
    simpl. rewrite <- app_assoc. reflexivity.
  - discriminate.
  - apply span_rest in El. destruct rest as [|d rest]; [exact I|].
    apply negb_false_iff in El. apply Ascii.eqb_eq in El. exact El.
Qed.

Lemma base_matcher_nil : base_matcher [] = None.
Proof. reflexivity. Qed.

Lemma base_matcher_newline (s : str) : base_matcher (newline :: s) = None.
Proof. reflexivity. Qed.

Lemma base_matcher_app (s x : str) :
  base_matcher s <> None -> base_matcher (s ++ x) <> None.
Proof.
  unfold base_matcher. destruct (span is_word s) as [key after] eqn:Ek.
  destruct key as [|k key]; [congruence|].
  destruct after as [|c1 [|c2 [|c value]]]; try congruence.
  rewrite (span_extend is_word s x _ _ _ Ek). cbn [app].
  destruct (Ascii.eqb c1 ":" && Ascii.eqb c2 " " && is_word c); [|congruence].
  intros _.
  match goal with |- context [span ?p ?l] => destruct (span p l) end.
  discriminate.
Qed.

Lemma has_header_true (s : str) :
  has_header true s =
  match base_matcher s with Some _ => true | None => false end
  || has_header false s.
Proof. destruct s; reflexivity. Qed.

Lemma has_header_false_cons (c : ascii) (s : str) :
  has_header false (c :: s) = has_header (Ascii.eqb c newline) s.
Proof. reflexivity. Qed.

Lemma has_header_weaken (bol : bool) (s : str) :
  has_header bol s = false -> has_header false s = false.
Proof.
  destruct bol; [|exact (fun H => H)].
  rewrite has_header_true. intros H. apply orb_false_elim in H. apply H.
Qed.

Lemma has_header_after_match (rest : str) :
  match rest with [] => True | c :: _ => c = newline end ->
  has_header false rest = false -> has_header true rest = false.
Proof.
  intros Hr Hf. rewrite has_header_true, Hf.
  destruct rest as [|c rest]; [reflexivity|]. subst c. reflexivity.
Qed.

Lemma split_from_spec (fuel : nat) :
  forall (bol : bool) (chunk s : str),
    length s < fuel ->
    exists init last,
      split_from fuel bol chunk s = Some (init ++ [last]) /\
      ((has_header bol s = false /\ init = [] /\ last = chunk ++ s) \/
       (has_header bol s = true /\ has_header true last = false)).
Proof.
  induction fuel as [|fuel IH]; intros bol chunk s Hlen; [lia|].
  simpl split_from.
  destruct (if bol then base_matcher s else None) as [[m rest]|] eqn:Em.
  - destruct bol; [|discriminate].
    destruct (base_matcher_some _ _ _ Em) as (Hs & Hm & Hrest).
    assert (Hl : length rest < fuel).
    { rewrite Hs, length_app in Hlen. destruct m; [congruence|]. simpl in Hlen. lia. }
    destruct (IH false [] rest Hl) as (init & last & Hsp & Hcase).
    exists (chunk :: m :: init), last. rewrite Hsp. split; [reflexivity|].
    right. split.
    + rewrite has_header_true, Em. reflexivity.
    + destruct Hcase as [(Hh & _ & Hlast)|[_ Hh]]; [|exact Hh].
      simpl in Hlast. subst last. apply has_header_after_match; assumption.
  - assert (Hhere : has_header bol s =
              match s with [] => false | c :: s' => has_header (Ascii.eqb c newline) s' end).
    { destruct bol.
      - rewrite has_header_true, Em. destruct s; reflexivity.
      - destruct s; reflexivity. }
    destruct s as [|c s'].
    + exists [], chunk. split; [reflexivity|]. left.
      rewrite Hhere, app_nil_r. auto.
    + simpl in Hlen.
      destruct (IH (Ascii.eqb c newline) (chunk ++ [c]) s') as (init & last & Hsp & Hcase);
        [lia|].
      exists init, last. split; [exact Hsp|]. rewrite Hhere.
      destruct Hcase as [(Hh & Hi & Hlast)|Hr]; [left|right; exact Hr].
      rewrite <- app_assoc in Hlast. auto.
Qed.

Lemma re_split_total (s : str) :
  exists init last,
    re_split s = Some (init ++ [last]) /\ has_header true last = false.
Proof.
  unfold re_split.
  destruct (split_from_spec (S (length s)) true [] s) as (init & last & Hsp & Hcase);
    [lia|].
  exists init, last. split; [exact Hsp|].
  destruct Hcase as [(Hh & _ & Hlast)|[_ Hh]]; [|exact Hh].
  simpl in Hlast. subst last. exact Hh.
Qed.

Lemma re_split_no_header (s : str) :
  has_header true s = false -> re_split s = Some [s].
Proof.
  intros Hh. unfold re_split.
  destruct (split_from_spec (S (length s)) true [] s) as (init & last & Hsp & Hcase);
    [lia|].
  destruct Hcase as [(_ & Hi & Hlast)|[Ht _]]; [|congruence].
  subst init. simpl in Hlast. subst last. exact Hsp.
Qed.

Lemma pop_snoc {A} (init : list A) (last : A) :
  pop (init ++ [last]) = Ok (init, last).
Proof.
  unfold pop. rewrite rev_app_distr. simpl. rewrite rev_involutive.
  reflexivity.
Qed.

Lemma has_header_suffix (pre t : str) :
  forall bol, has_header bol (pre ++ t) = false -> has_header false t = false.
Proof.
  induction pre as [|c pre IH]; intros bol H.
  - exact (has_header_weaken _ _ H).
  - apply has_header_weaken in H. simpl app in H.
    rewrite has_header_false_cons in H. exact (IH _ H).
Qed.

Lemma has_header_prefix (u x : str) :
  forall bol, has_header bol (u ++ x) = false -> has_header bol u = false.
Proof.
  induction u as [|c u IH]; intros bol H.
  - destruct bol; reflexivity.
  - pose proof (has_header_weaken _ _ H) as Ht. simpl app in Ht.
    rewrite has_header_false_cons in Ht. apply IH in Ht.
    destruct bol.
    + rewrite has_header_true, has_header_false_cons, Ht.
      rewrite has_header_true in H. apply orb_false_elim in H as [Hm _].
      destruct (base_matcher (c :: u)) eqn:E; [|reflexivity].
      exfalso. apply (base_matcher_app (c :: u) x); [congruence|].
      destruct (base_matcher ((c :: u) ++ x)); [discriminate|reflexivity].
    + rewrite has_header_false_cons. exact Ht.
Qed.

Lemma has_header_strip (s : str) :
  has_header true s = false -> has_header false (strip s) = false.
Proof.
  intros H. unfold strip.
  destruct (lstrip_suffix s) as [ws Hws].
  rewrite Hws in H. apply has_header_suffix in H.
  destruct (rstrip_prefix (lstrip s)) as [ws' Hws'].
  rewrite Hws' in H. apply has_header_prefix in H. exact H.
Qed.

(** ** The attribute parser *)

Lemma parse_content_spec (content : str) :
  exists init last,
    re_split content = Some (init ++ [last]) /\
    has_header true last = false /\
    Legacy.parse_content content =
      Ok (List.filter (fun x => nonempty (strip x)) init, strip last).
Proof.
  destruct (re_split_total content) as (init & last & Hsp & Hh).
  exists init, last. split; [exact Hsp|]. split; [exact Hh|].
  unfold Legacy.parse_content. rewrite Hsp, pop_snoc. reflexivity.
Qed.

Lemma parse_content_no_header (content : str) :
  has_header true content = false ->
  Legacy.parse_content content = Ok ([], strip content).
Proof.
  intros Hh. unfold Legacy.parse_content.
  rewrite (re_split_no_header _ Hh). reflexivity.
Qed.

(** [parse_content] is total: on every string, the empty one and those
    with malformed header lines included, it returns a pair (attributes,
    body) and raises nothing.  A text none of whose lines matches the
    header pattern gives no attribute and is returned whole, stripped, as
    the body. *)
Theorem parse_content_total (content : str) :
  (exists attrs body, Legacy.parse_content content = Ok (attrs, body)) /\
  (has_header true content = false ->
   Legacy.parse_content content = Ok ([], strip content)).
Proof.
  split.
  - destruct (parse_content_spec content) as (init & last & _ & _ & H).
    eauto.
  - apply parse_content_no_header.
Qed.

Lemma parse_content_total_witness :
  has_header true (joinlines ["title:no space"; "body"]) = false /\
  Legacy.parse_content (joinlines ["title:no space"; "body"]) =
    Ok ([], joinlines ["title:no space"; "body"]).
Proof.
  split; [reflexivity|].
  exact (proj2 (parse_content_total (joinlines ["title:no space"; "body"]))
               eq_refl).
Defined.

(** C1. On the text ["title: Post\nIntro\nnote: x\nEnd"] the parser does
    not stop at the first line that is no header: the line [note: x],
    which comes after the body line [Intro], is returned as an attribute,
    the body line itself is returned in the attributes list, and only
    [End] is left as the body. *)
Theorem parse_content_embedded_header :
  Legacy.parse_content (joinlines ["title: Post"; "Intro"; "note: x"; "End"])
  = Ok ([("title: Post" : str); joinlines [""; "Intro"; ""]; ("note: x" : str)],
        ("End" : str)).
Proof. reflexivity. Qed.

(** C6, the claim as stated, fails on [" a: b"]: the body of the first
    parse is ["a: b"], and parsing that again leaves the empty body. *)
Lemma parsed_body_not_idempotent :
  Legacy.parsed_body " a: b" = Ok ("a: b" : str) /\
  (let* b := Legacy.parsed_body " a: b" in Legacy.parsed_body b)
  = Ok ([] : str) /\
  (let* b := Legacy.parsed_body " a: b" in Legacy.parsed_body b)
  <> Legacy.parsed_body " a: b".
Proof. repeat split. discriminate. Qed.

(** C6, amended. When the body returned by [parse_content] does not itself
    begin with a line that matches the header pattern, parsing the body
    again returns no attribute and the same body. *)
Theorem parse_content_body_idempotent (text body : str) :
  Legacy.parsed_body text = Ok body ->
  base_matcher body = None ->
  Legacy.parse_content body = Ok ([], body) /\
  Legacy.parsed_body body = Ok body.
Proof.
  intros Hb Hm.
  destruct (parse_content_spec text) as (init & last & _ & Hh & Hp).
  unfold Legacy.parsed_body in Hb. rewrite Hp in Hb. simpl in Hb.
  inversion Hb; subst body; clear Hb.
  assert (Hno : has_header true (strip last) = false).
  { rewrite has_header_true, Hm. apply has_header_strip. exact Hh. }
  assert (Hp2 : Legacy.parse_content (strip last) = Ok ([], strip last)).
  { rewrite (parse_content_no_header _ Hno), strip_idem. reflexivity. }
  split; [exact Hp2|]. unfold Legacy.parsed_body. rewrite Hp2. reflexivity.
Qed.

Lemma parse_content_body_idempotent_witness :
  Legacy.parse_content "Body text." = Ok ([], ("Body text." : str)) /\
  Legacy.parsed_body "Body text." = Ok ("Body text." : str).
Proof.
  apply (parse_content_body_idempotent
           (joinlines ["title: Hello World"; "tags: a, B"; ""; "Body text."])
           "Body text."); reflexivity.
Defined.

(** ** Results and attribute stores *)

Lemma bind_ok {A B} (r : result A) (k : A -> result B) (b : B) :
  bind r k = Ok b -> exists a, r = Ok a /\ k a = Ok b.
Proof. destruct r as [a|e]; simpl; [eauto | discriminate]. Qed.

Ltac bind_inv H x Hx :=
  apply bind_ok in H as (x & Hx & H).

Ltac str_neq :=
  let E := fresh in intros E; vm_compute in E; discriminate E.




(** ** The first revision: construction *)

Lemma legacy_setattr_ok (self self' : Legacy.Page) (n : str) (v : value) :
  Legacy.setattr self n v = Ok self' -> self' = Legacy.store self n v.
Proof.
  unfold Legacy.setattr.
  repeat (match goal with |- context [bool_decide ?P] => destruct (bool_decide P) end);
    congruence.
Qed.

Lemma legacy_getattr_store (self : Legacy.Page) (n k : str) (v : value) :
  n <> k ->
  Legacy.getattr (Legacy.store self n v) k = Legacy.getattr self k.
Proof.
  intros Hne. unfold Legacy.getattr, Legacy.store. simpl.
  rewrite lookup_insert_ne by exact Hne. reflexivity.
Qed.

Lemma legacy_set_attr_other (self self' : Legacy.Page) (attr k : str) :
  Legacy.set_attr self attr = Ok self' ->
  Legacy.attr_name attr <> Some k ->
  Legacy.page_dict self' !! k = Legacy.page_dict self !! k /\
  Legacy.page_class self' = Legacy.page_class self.
Proof.
  unfold Legacy.set_attr, Legacy.attr_name.
  destruct (split1 ": " attr) as [|name [|value [|]]]; try discriminate.
  intros H Hk. bind_inv H la Hla. bind_inv H listed Hl.
  apply legacy_setattr_ok in H. subst self'. simpl.
  split; [|reflexivity]. apply lookup_insert_ne. congruence.
Qed.

Lemma legacy_set_attrs_other (attrs : list str) (k : str) :
  forall self self',
    Legacy.set_attrs self attrs = Ok self' ->
    Forall (fun a => Legacy.attr_name a <> Some k) attrs ->
    Legacy.page_dict self' !! k = Legacy.page_dict self !! k /\
    Legacy.page_class self' = Legacy.page_class self.
Proof.
  induction attrs as [|a attrs IH]; simpl; intros self self' H Hall.
  - inversion H. auto.
  - bind_inv H self1 H1. inversion Hall as [|? ? Ha Hrest]; subst.
    destruct (legacy_set_attr_other _ _ _ _ H1 Ha) as [E1 C1].
    destruct (IH _ _ H Hrest) as [E2 C2].
    split; congruence.
Qed.

Lemma legacy_set_attrs_class (attrs : list str) :
  forall self self',
    Legacy.set_attrs self attrs = Ok self' ->
    Legacy.page_class self' = Legacy.page_class self.
Proof.
  induction attrs as [|a attrs IH]; simpl; intros self self' H.
  - inversion H. reflexivity.
  - bind_inv H self1 H1. rewrite (IH _ _ H).
    unfold Legacy.set_attr in H1.
    destruct (split1 ": " a) as [|name [|value [|]]]; try discriminate.
    bind_inv H1 la Hla. bind_inv H1 listed Hl.
    apply legacy_setattr_ok in H1. subst self1. reflexivity.
Qed.

Section LegacyInit.

Variable read_text : str -> result str.
Variable markdown : str -> str.

Lemma legacy_init_inv (cls : Legacy.PageClass) (content_path : option str)
    (content : str) (no_index : bool) (p : Legacy.Page) :
  Legacy.Page_init read_text markdown cls content_path content no_index = Ok p ->
  exists attrs self0 self1 self2 self3 s route,
    Legacy.Page_attrs read_text cls content_path content no_index = Ok attrs /\
    Legacy.page_dict self0 !! ("title" : str) = None /\
    Legacy.page_dict self0 !! ("name" : str) = None /\
    Legacy.page_class self0 = cls /\
    Legacy.set_attrs self0 attrs = Ok self1 /\
    self2 = (if Legacy.hasattr self1 "title" then self1
             else Legacy.store self1 "title" (Legacy.name_or_class self1)) /\
    (self3 = self2 \/ exists t, self3 = Legacy.store self2 "slug" t) /\
    p = Legacy.store
          (Legacy.store self3 "slug"
             (VStr (re_sub_punct (replace " " "_" (lower s)))))
          "url" (VStr (route ++ "/" ++ re_sub_punct (replace " " "_" (lower s)))).
Proof.
  unfold Legacy.Page_init, Legacy.Page_attrs. cbv zeta. intros H.
  bind_inv H selfa Ha. rewrite Ha. cbn [bind].
  bind_inv H text Ht. rewrite Ht. cbn [bind].
  bind_inv H ab Hab. rewrite Hab. cbn [bind]. destruct ab as [attrs body].
  bind_inv H self0 H0. bind_inv H self1 H1. bind_inv H self2 H2.
  bind_inv H self3 H3. bind_inv H slug Hslug.
  destruct slug as [| |s|]; try discriminate.
  bind_inv H self4 H4. bind_inv H c Hc. bind_inv H routes Hr.
  bind_inv H route Hroute.
  apply legacy_setattr_ok in Ha, H0, H4, H. subst selfa self0 self4 p.
  eexists attrs, _, self1, self2, self3, s, route.
  split; [reflexivity|]. split; [|split; [|split; [|split; [exact H1|split]]]];
    try reflexivity.
  - revert H2. destruct (Legacy.hasattr self1 "title"); intros H2.
    + congruence.
    + apply legacy_setattr_ok in H2. exact H2.
  - split; [|reflexivity].
    revert H3. destruct (Legacy.hasattr self2 "slug"); intros H3.
    + left. congruence.
    + right. bind_inv H3 t Htt. apply legacy_setattr_ok in H3. eauto.
Qed.


(** C9, amended. When no attribute parsed from the document is named
    [title], the title of the page is the [title] of its class if the
    class defines one; otherwise it is the [name] of the page if that is
    set and not empty, and the name of the class if not.  The [name] of the
    page is the one its class configures unless the document has a [name]
    attribute of its own. *)
Theorem title_default (cls : Legacy.PageClass) (content_path : option str)
    (content : str) (no_index : bool) (attrs : list str) (p : Legacy.Page) :
  Legacy.Page_init read_text markdown cls content_path content no_index = Ok p ->
  Legacy.Page_attrs read_text cls content_path content no_index = Ok attrs ->
  Forall (fun a => Legacy.attr_name a <> Some ("title" : str)) attrs ->
  Legacy.getattr p "title" =
    Some (match Legacy.cls_dict cls !! ("title" : str) with
          | Some t => t
          | None => Legacy.name_or_class p
          end) /\
  (Forall (fun a => Legacy.attr_name a <> Some ("name" : str)) attrs ->
   Legacy.getattr p "name" = Legacy.cls_dict cls !! ("name" : str)).
Proof.
  intros H Hattrs Hall.
  destruct (legacy_init_inv _ _ _ _ _ H)
    as (attrs' & self0 & self1 & self2 & self3 & s & route
        & Ha & Ht0 & Hn0 & Hc0 & Hloop & H2 & H3 & ->).
  rewrite Ha in Hattrs. inversion Hattrs; subst attrs'; clear Hattrs.
  destruct (legacy_set_attrs_other _ _ _ _ Hloop Hall) as [Ht1 Hc1].
  rewrite Ht0 in Ht1. rewrite Hc0 in Hc1.
  assert (Hget : forall k : str,
             k <> "title" -> k <> "slug" -> k <> "url" ->
             Legacy.getattr
               (Legacy.store
                  (Legacy.store self3 "slug"
                     (VStr (re_sub_punct (replace " " "_" (lower s)))))
                  "url"
                  (VStr (route ++ "/" ++ re_sub_punct (replace " " "_" (lower s)))))
               k
             = Legacy.getattr self1 k).
  { intros k Hk1 Hk2 Hk3.
    rewrite !legacy_getattr_store by congruence.
    assert (E32 : Legacy.getattr self3 k = Legacy.getattr self2 k).
    { destruct H3 as [->|[t ->]]; [reflexivity|].
      apply legacy_getattr_store. congruence. }
    rewrite E32, H2. destruct (Legacy.hasattr self1 "title"); [reflexivity|].
    apply legacy_getattr_store. congruence. }
  assert (Htitle3 : Legacy.getattr self3 "title" = Legacy.getattr self2 "title").
  { destruct H3 as [->|[t ->]]; [reflexivity|].
    apply legacy_getattr_store. str_neq. }
  split.
  - rewrite !legacy_getattr_store by str_neq. rewrite Htitle3.
    assert (Hname : Legacy.name_or_class
              (Legacy.store
                 (Legacy.store self3 "slug"
                    (VStr (re_sub_punct (replace " " "_" (lower s)))))
                 "url"
                 (VStr (route ++ "/" ++ re_sub_punct (replace " " "_" (lower s)))))
            = Legacy.name_or_class self1).
    { unfold Legacy.name_or_class. rewrite Hget by str_neq.
      replace (Legacy.page_class (Legacy.store
                 (Legacy.store self3 "slug"
                    (VStr (re_sub_punct (replace " " "_" (lower s)))))
                 "url"
                 (VStr (route ++ "/" ++ re_sub_punct (replace " " "_" (lower s))))))
        with (Legacy.page_class self1); [reflexivity|].
      simpl. destruct H3 as [->|[t ->]]; simpl; rewrite H2;
        destruct (Legacy.hasattr self1 "title"); reflexivity. }
    rewrite Hname, H2.
    assert (Hg1 : Legacy.getattr self1 "title"
                  = Legacy.cls_dict cls !! ("title" : str)).
    { unfold Legacy.getattr. rewrite Ht1, Hc1. reflexivity. }
    unfold Legacy.hasattr. rewrite Hg1.
    destruct (Legacy.cls_dict cls !! ("title" : str)) as [t|] eqn:Et.
    + rewrite Hg1. reflexivity.
    + unfold Legacy.getattr, Legacy.store. simpl.
      rewrite lookup_insert_eq. reflexivity.
  - intros Hall'.
    destruct (legacy_set_attrs_other _ _ _ _ Hloop Hall') as [Hn1 _].
    rewrite Hget by str_neq. unfold Legacy.getattr.
    rewrite Hn1, Hn0, Hc1. reflexivity.
Qed.

End LegacyInit.

(** The markdown converter only serves the debug log line: what
    [Page.__init__] returns does not depend on it. *)
Lemma legacy_content_status {B} (md1 md2 : str -> str) (self : Legacy.Page)
    (r : result B) :
  bind (Legacy.Page_content md1 self) (fun _ => r)
  = bind (Legacy.Page_content md2 self) (fun _ => r).
Proof.
  unfold Legacy.Page_content, Legacy.Page_html.
  destruct (Legacy.attribute self "_content") as [v|e]; [|reflexivity].
  cbn [bind]. destruct (truthy v); [|reflexivity].
  destruct v; reflexivity.
Qed.

Lemma legacy_init_markdown (rt : str -> result str) (md1 md2 : str -> str)
    (cls : Legacy.PageClass) (content_path : option str) (content : str)
    (no_index : bool) :
  Legacy.Page_init rt md1 cls content_path content no_index
  = Legacy.Page_init rt md2 cls content_path content no_index.
Proof.
  unfold Legacy.Page_init. cbv zeta.
  repeat match goal with
         | |- bind ?r _ = bind ?r _ =>
             destruct r as [?|?]; cbn [bind]; [|reflexivity]
         | |- (let (_, _) := ?x in _) = _ => destruct x
         | |- match ?v with VStr _ => _ | _ => _ end = _ =>
             destruct v; try reflexivity
         end.
  apply legacy_content_status.
Qed.

(** C9, the claim as stated, fails on the document ["name: Bob\n\nIntro"]
    given to the class [Page]: no attribute is named [title], the class
    configures no default name, and the title is [Bob], not [Page]. *)
Lemma title_from_name_attribute :
  Legacy.Page_attrs no_files Legacy.Page_class None
    (joinlines ["name: Bob"; ""; "Intro"]) false = Ok [("name: Bob" : str)] /\
  Legacy.attr_name "name: Bob" = Some ("name" : str) /\
  Legacy.cls_dict Legacy.Page_class !! ("name" : str) = None /\
  Legacy.cls_dict Legacy.Page_class !! ("title" : str) = None /\
  match Legacy.Page_init no_files plain_markdown Legacy.Page_class None
          (joinlines ["name: Bob"; ""; "Intro"]) false with
  | Ok p => Legacy.getattr p "title"
  | Raise _ => None
  end = Some (VStr "Bob") /\
  VStr "Bob" <> VStr (Legacy.cls_name Legacy.Page_class).
Proof. repeat split; try reflexivity. discriminate. Qed.


Lemma title_default_witness :
  Legacy.getattr
    (legacy_page BlogPost (joinlines ["tags: a, B"; ""; "Body text."]))
    "title" = Some (VStr "Blog") /\
  Legacy.getattr
    (legacy_page BlogPost (joinlines ["tags: a, B"; ""; "Body text."]))
    "name" = Some (VStr "Blog").
Proof.
  destruct (title_default no_files plain_markdown BlogPost None
              (joinlines ["tags: a, B"; ""; "Body text."]) false
              [("tags: a, B" : str)]
              (legacy_page BlogPost (joinlines ["tags: a, B"; ""; "Body text."]))
              eq_refl eq_refl) as [Ht Hn].
  - constructor; [|constructor]. intros E. vm_compute in E. discriminate E.
  - split; [exact Ht|]. apply Hn.
    constructor; [|constructor]. intros E. vm_compute in E. discriminate E.
Defined.





(** Scenario A on the first revision: the attributes, the body and the
    slug of ["title: Hello World\ntags: a, B\n\nBody text."]. *)
Example legacy_scenario_A (rt : str -> result str) (md : str -> str) :
  match Legacy.Page_init rt md Legacy.Page_class None
          (joinlines ["title: Hello World"; "tags: a, B"; ""; "Body text."])
          false with
  | Ok p => (Legacy.page_dict p !! ("title" : str),
             Legacy.page_dict p !! ("tags" : str),
             Legacy.page_dict p !! ("_content" : str),
             Legacy.page_dict p !! ("slug" : str),
             Legacy.page_dict p !! ("url" : str))
  | Raise _ => (None, None, None, None, None)
  end
  = (Some (VStr "Hello World"), Some (VList [("a" : str); ("b" : str)]),
     Some (VStr "Body text."), Some (VStr "hello_world"),
     Some (VStr "/hello_world")).
Proof. reflexivity. Qed.

(** The text of C1 given to [Page.__init__]: the body line that the parser
    returned among the attributes has no [": "], and the constructor
    raises [ValueError]. *)
Example legacy_embedded_header_raises (rt : str -> result str)
    (md : str -> str) :
  Legacy.Page_init rt md Legacy.Page_class None
    (joinlines ["title: Post"; "Intro"; "note: x"; "End"]) false
  = Raise ValueError.
Proof. reflexivity. Qed.

(** ** The second revision *)

Section CurrentFacts.

Variable slugify : str -> str.
Variable get_template : Current.Env -> value -> result Current.Template.
Variable render : Current.Template -> gmap str value -> result str.
Variable parse_content_path : value -> result str.
Variable parse_content : value -> result (list (str * value) * str).
Variable parser_markup : Current.Page -> value -> result str.


Lemma current_extension_dot (self : Current.Page) (ext : str) :
  Current._extension self = Ok ext ->
  exists e,
    Current.getattr self "extension" = Some (VStr e) /\
    ext = (if startswith "." e then e else "." ++ e) /\
    startswith "." ext = true.
Proof.
  unfold Current._extension, Current.attribute. intros H.
  destruct (Current.getattr self "extension") as [[| |e|]|]; try discriminate.
  cbn [bind] in H. exists e. split; [reflexivity|].
  destruct (startswith "." e) eqn:E; simpl in H; inversion H; subst ext.
  - split; [reflexivity | exact E].
  - split; reflexivity.
Qed.

(** C2, amended. The [url] of a page ends with its slug followed by the
    extension suffix.  The suffix is the [extension] of the page ([.html]
    for the class [Page]) when that begins with [.], and the extension
    with one [.] put in front when it does not; in both cases it begins
    with [.]. *)
Theorem url_slug_extension (self self' : Current.Page) (u : str) :
  Current.url slugify self = Ok (u, self') ->
  exists s e ext,
    Current.slug slugify self = Ok (s, self') /\
    Current.getattr self' "extension" = Some (VStr e) /\
    Current._extension self' = Ok ext /\
    ext = (if startswith "." e then e else "." ++ e) /\
    startswith "." ext = true /\
    exists pre, u = pre ++ s ++ ext.
Proof.
  unfold Current.url. intros H. bind_inv H sp Hs. destruct sp as [s self1].
  bind_inv H ext He. inversion H; subst u self'; clear H.
  destruct (current_extension_dot _ _ He) as (e & Hg & Hext & Hdot).
  exists s, e, ext. repeat (split; [assumption|]).
  exists []. reflexivity.
Qed.








(** C10. [markup] of a page without a [content] attribute is [None], not
    a string and not an error; with a [content] attribute it is what the
    parser's [markup] makes of that content. *)
Theorem markup_none_without_content (self : Current.Page) :
  (Current.getattr self "content" = None ->
   Current.markup parser_markup self = Ok None) /\
  (forall c, Current.getattr self "content" = Some c ->
   Current.markup parser_markup self
   = let* m := parser_markup self c in Ok (Some m)).
Proof.
  unfold Current.markup. split.
  - intros ->. reflexivity.
  - intros c ->. reflexivity.
Qed.

(** [Page()] with no argument, on a class without [content] and
    [content_path]: the page has no attribute of its own. *)
Lemma current_init_bare (cls : Current.PageClass) :
  Current.cls_dict cls !! ("content" : str) = None ->
  Current.cls_dict cls !! ("content_path" : str) = None ->
  (exists v, Current.cls_dict cls !! ("invalid_attrs" : str) = Some v) ->
  Current.Page_init slugify parse_content_path parse_content cls None None
  = Ok {| Current.page_class := cls; Current.page_dict := ∅ |}.
Proof.
  intros Hc Hp [v Hv]. unfold Current.Page_init. cbv zeta.
  set (self := {| Current.page_class := cls; Current.page_dict := ∅ |}).
  assert (G : forall k : str,
             Current.getattr self k = Current.cls_dict cls !! k).
  { intros k. unfold Current.getattr, self.
    cbn [Current.page_dict Current.page_class].
    rewrite lookup_empty. reflexivity. }
  rewrite !G, Hp, Hc. cbn [Current.or_attr truthy bind].
  unfold Current.attribute. rewrite G, Hv. reflexivity.
Qed.

End CurrentFacts.

(** C2, the claim as stated, fails twice.  On [Page()] of the class [Page],
    whose first route is [./] and whose suffix is [.html], the url is the
    slug and the suffix without the route, whatever [slugify] returns.  On
    a class with [extension = "..html"] the suffix keeps its two dots. *)
Lemma url_without_route_and_two_dots :
  Current.getattr bare_page "routes" = Some (VList [("./" : str)]) /\
  Current._extension bare_page = Ok (".html" : str) /\
  ~ (exists slugify s u p1 p2,
       Current.slug slugify bare_page = Ok (s, p1) /\
       Current.url slugify bare_page = Ok (u, p2) /\
       u = "./" ++ s ++ ".html") /\
  Current._extension
    {| Current.page_class := Dotted; Current.page_dict := ∅ |}
  = Ok ("..html" : str).
Proof.
  split; [reflexivity|]. split; [reflexivity|]. split; [|reflexivity].
  intros (slugify & s & u & p1 & p2 & Hs & Hu & E).
  unfold Current.url in Hu. rewrite Hs in Hu. cbn [bind] in Hu.
  revert E. vm_compute in Hs. inversion Hs; subst s p1; clear Hs.
  vm_compute in Hu. inversion Hu; subst u p2; clear Hu. intros E.
  apply (f_equal (@length ascii)) in E. rewrite !length_app in E.
  simpl in E. lia.
Qed.

Lemma url_slug_extension_witness :
  exists s e ext,
    Current.slug sample_slugify bare_page
    = Ok (s, Current.store bare_page "_slug" (VStr "Page")) /\
    Current.getattr (Current.store bare_page "_slug" (VStr "Page")) "extension"
    = Some (VStr e) /\
    Current._extension (Current.store bare_page "_slug" (VStr "Page")) = Ok ext /\
    ext = (if startswith "." e then e else "." ++ e) /\
    startswith "." ext = true /\
    exists pre, ("page.html" : str) = pre ++ s ++ ext.
Proof.
  exact (url_slug_extension sample_slugify bare_page
           (Current.store bare_page "_slug" (VStr "Page")) "page.html" eq_refl).
Defined.


Lemma markup_none_without_content_witness :
  Current.markup sample_markup bare_page = Ok None /\
  Current.markup sample_markup (Current.store bare_page "content" (VStr "Body"))
  = Ok (Some ("Body" : str)).
Proof.
  split.
  - exact (proj1 (markup_none_without_content sample_markup bare_page) eq_refl).
  - exact (proj2 (markup_none_without_content sample_markup
                    (Current.store bare_page "content" (VStr "Body")))
                 (VStr "Body") eq_refl).
Defined.

(** Scenario D on the second revision: [Page()] has no content and the
    class [Page] gives [template] no value; rendering raises, and [markup]
    is [None]. *)
Example current_scenario_D (slugify : str -> str)
    (get_template : Current.Env -> value -> result Current.Template)
    (render : Current.Template -> gmap str value -> result str)
    (parse_content_path : value -> result str)
    (parse_content : value -> result (list (str * value) * str))
    (parser_markup : Current.Page -> value -> result str)
    (engine : option Current.Env) (kwargs : gmap str value) :
  Current.Page_init slugify parse_content_path parse_content
    Current.Page_class None None = Ok bare_page /\
  Current._render_content slugify get_template render parser_markup
    bare_page engine kwargs = Raise AttributeError /\
  Current.markup parser_markup bare_page = Ok None.
Proof.
  split; [|split].
  - apply current_init_bare; [reflexivity | reflexivity | eexists; reflexivity].
  - reflexivity.
  - reflexivity.
Qed.

(** A document with a [Slug] attribute given to the class [Page]: the
    attribute is kept as it is under [_slug], and the property [slug]
    still slugifies what it reads there. *)
Example current_slug_attribute (slugify : str -> str)
    (parse_content_path : value -> result str)
    (parse_content : value -> result (list (str * value) * str))
    (c : ascii) (text body : str) :
  parse_content (VStr (c :: text))
  = Ok ([(("Slug" : str), VStr "My Custom Slug")], body) ->
  Current.Page_init slugify parse_content_path parse_content
    Current.Page_class (Some (c :: text)) None
  = Ok (Current.store (Current.store bare_page "content" (VStr body))
          "_slug" (VStr "My Custom Slug")) /\
  Current.slug slugify
    (Current.store (Current.store bare_page "content" (VStr body))
       "_slug" (VStr "My Custom Slug"))
  = Ok (slugify "My Custom Slug",
        Current.store (Current.store bare_page "content" (VStr body))
          "_slug" (VStr "My Custom Slug")).
Proof.
  intros Hp. split; [|reflexivity].
  unfold Current.Page_init. cbv zeta.
  change (Current.getattr _ "content_path") with (@None value).
  cbn [Current.or_attr truthy bind nonempty]. rewrite Hp. reflexivity.
Qed.

(** In the second revision the slug is always a result of [slugify], and
    the title of a page without [_title] is the name of its class. *)
Lemma current_slug_is_slugified (slugify : str -> str)
    (self self' : Current.Page) (s : str) :
  Current.slug slugify self = Ok (s, self') -> exists t, s = slugify t.
Proof.
  unfold Current.slug, Current.py_slugify. intros H.
  bind_inv H v Hv. bind_inv H s' Hs. inversion H; subst.
  destruct v; try discriminate. inversion Hs. eauto.
Qed.

Lemma current_title_default (self : Current.Page) :
  Current.getattr self "_title" = None ->
  Current.title self = VStr (Current.cls_name (Current.page_class self)).
Proof. unfold Current.title. intros ->. reflexivity. Qed.

(** * Further properties of the first revision *)

(** ** What [parse_content] keeps and drops *)

Lemma split_from_concat (fuel : nat) :
  forall (bol : bool) (chunk s : str) (l : list str),
    split_from fuel bol chunk s = Some l -> concat l = chunk ++ s.
Proof.
  induction fuel as [|fuel IH]; intros bol chunk s l H; [discriminate|].
  cbn [split_from] in H.
  destruct (if bol then base_matcher s else None) as [[m rest]|] eqn:Em.
  - destruct bol; [|discriminate].
    destruct (base_matcher_some _ _ _ Em) as (Hs & _ & _).
    destruct (split_from fuel false [] rest) as [l'|] eqn:El; [|discriminate].
    inversion H; subst l. cbn [concat]. rewrite (IH _ _ _ _ El).
    rewrite Hs. reflexivity.
  - destruct s as [|c s'].
    + inversion H; subst l. cbn [concat]. rewrite !app_nil_r. reflexivity.
    + rewrite (IH _ _ _ _ H), <- app_assoc. reflexivity.
Qed.

Lemma ink_app (a b : str) : ink (a ++ b) = ink a ++ ink b.
Proof. apply List.filter_app. Qed.

Lemma ink_lstrip (s : str) : ink (lstrip s) = ink s.
Proof.
  induction s as [|c s IH]; [reflexivity|]. cbn [lstrip].
  destruct (is_space c) eqn:Ec; [|reflexivity].
  rewrite IH. unfold ink. cbn [List.filter]. rewrite Ec. reflexivity.
Qed.

Lemma ink_rev (s : str) : ink (rev s) = rev (ink s).
Proof.
  induction s as [|c s IH]; [reflexivity|]. cbn [rev].
  rewrite ink_app, IH. unfold ink at 2 3. cbn [List.filter].
  destruct (negb (is_space c)); cbn [rev]; [reflexivity|].
  rewrite app_nil_r. reflexivity.
Qed.

Lemma ink_strip (s : str) : ink (strip s) = ink s.
Proof.
  unfold strip, rstrip.
  rewrite ink_rev, ink_lstrip, ink_rev, rev_involutive. apply ink_lstrip.
Qed.

Lemma ink_blank (s : str) : nonempty (strip s) = false -> ink s = [].
Proof.
  intros H. rewrite <- ink_strip. destruct (strip s); [reflexivity|discriminate].
Qed.

Lemma ink_concat_filter (l : list str) :
  ink (concat (List.filter (fun x => nonempty (strip x)) l)) = ink (concat l).
Proof.
  induction l as [|x l IH]; [reflexivity|]. cbn [List.filter concat].
  destruct (nonempty (strip x)) eqn:Ex.
  - cbn [concat]. rewrite !ink_app, IH. reflexivity.
  - rewrite ink_app, (ink_blank _ Ex), IH. reflexivity.
Qed.

(** X1. [parse_content] loses nothing but whitespace: the non-whitespace
    characters of the text are, in order, those of the returned
    attributes followed by those of the returned body. *)
Theorem parse_content_keeps_ink (content body : str) (attrs : list str) :
  Legacy.parse_content content = Ok (attrs, body) ->
  ink content = ink (concat attrs ++ body).
Proof.
  intros H.
  destruct (parse_content_spec content) as (init & last & Hsp & _ & Hp).
  rewrite Hp in H. inversion H; subst attrs body; clear H.
  unfold re_split in Hsp. apply split_from_concat in Hsp.
  cbn [app] in Hsp. rewrite <- Hsp, concat_app. cbn [concat].
  rewrite app_nil_r, !ink_app, ink_concat_filter, ink_strip. reflexivity.
Qed.

Lemma parse_content_keeps_ink_witness :
  ink (joinlines ["title: Hello World"; "tags: a, B"; ""; "Body text."])
  = ink (concat [("title: Hello World" : str); ("tags: a, B" : str)]
         ++ ("Body text." : str)).
Proof.
  exact (parse_content_keeps_ink
           (joinlines ["title: Hello World"; "tags: a, B"; ""; "Body text."])
           "Body text." [("title: Hello World" : str); ("tags: a, B" : str)]
           eq_refl).
Defined.

(** X2. What [parse_content] returns is trimmed: stripping the body again
    changes nothing, and no entry of the attributes list is blank. *)
Theorem parse_content_trimmed (content body : str) (attrs : list str) :
  Legacy.parse_content content = Ok (attrs, body) ->
  strip body = body /\
  Forall (fun a => nonempty (strip a) = true) attrs.
Proof.
  intros H.
  destruct (parse_content_spec content) as (init & last & _ & _ & Hp).
  rewrite Hp in H. inversion H; subst attrs body; clear H.
  split; [apply strip_idem|].
  apply List.Forall_forall. intros a Ha.
  apply List.filter_In in Ha. apply Ha.
Qed.

Lemma parse_content_trimmed_witness :
  strip ("End" : str) = ("End" : str) /\
  Forall (fun a => nonempty (strip a) = true)
    [("title: Post" : str); joinlines [""; "Intro"; ""]; ("note: x" : str)].
Proof.
  exact (parse_content_trimmed
           (joinlines ["title: Post"; "Intro"; "note: x"; "  End  "])
           "End"
           [("title: Post" : str); joinlines [""; "Intro"; ""]; ("note: x" : str)]
           eq_refl).
Defined.

(** ** Documents that begin with a block of header lines *)

Lemma span_fst (p : ascii -> bool) (s a b : str) :
  span p s = (a, b) -> Forall (fun c => p c = true) a.
Proof.
  revert a b. induction s as [|c s IH]; cbn [span]; intros a b H.
  - inversion H. constructor.
  - destruct (p c) eqn:Ec.
    + destruct (span p s) as [a' b'] eqn:E. inversion H; subst.
      constructor; [exact Ec | exact (IH _ _ eq_refl)].
    + inversion H. constructor.
Qed.

Lemma span_exact (p : ascii -> bool) (a b : str) :
  Forall (fun c => p c = true) a ->
  match b with [] => True | c :: _ => p c = false end ->
  span p (a ++ b) = (a, b).
Proof.
  intros Ha Hb. induction Ha as [|c a Hc Ha IH]; cbn [app span].
  - destruct b as [|c b]; [reflexivity|]. cbn [span]. rewrite Hb. reflexivity.
  - rewrite Hc, IH. reflexivity.
Qed.

Lemma is_word_not_space (c : ascii) : is_word c = true -> is_space c = false.
Proof. destruct c as [[] [] [] [] [] [] [] []]; vm_compute; congruence. Qed.

Lemma header_line_shape (h : str) :
  header_line h ->
  exists k key c value,
    h = (k :: key) ++ ":"%char :: " "%char :: c :: value /\
    Forall (fun x => is_word x = true) (k :: key) /\
    is_word c = true /\
    Forall (fun x => negb (Ascii.eqb x newline) = true) (c :: value).
Proof.
  unfold header_line, base_matcher.
  destruct (span is_word h) as [key after] eqn:Ek.
  destruct key as [|k key]; [discriminate|].
  destruct after as [|c1 [|c2 [|c value]]]; try discriminate.
  destruct (Ascii.eqb c1 ":" && Ascii.eqb c2 " " && is_word c) eqn:Ec;
    [|discriminate].
  apply andb_prop in Ec as [Ec Hw]. apply andb_prop in Ec as [E1 E2].
  apply Ascii.eqb_eq in E1, E2. subst c1 c2.
  destruct (span (fun x => negb (Ascii.eqb x newline)) (c :: value))
    as [line r] eqn:El.
  intros H. inversion H as [[Hh Hr]]. subst r.
  pose proof (span_app _ _ _ _ El) as Hline. rewrite app_nil_r in Hline.
  pose proof (span_fst _ _ _ _ Ek) as Hkey.
  pose proof (span_fst _ _ _ _ El) as Hval.
  exists k, key, c, value. split; [|split; [|split]].
  - rewrite <- Hline. reflexivity.
  - exact Hkey.
  - exact Hw.
  - rewrite Hline. exact Hval.
Qed.

Lemma header_line_extend (h rest : str) :
  header_line h ->
  match rest with [] => True | c :: _ => c = newline end ->
  base_matcher (h ++ rest) = Some (h, rest).
Proof.
  intros Hh Hrest.
  destruct (header_line_shape h Hh) as (k & key & c & value & -> & Hkey & Hc & Hval).
  unfold base_matcher. rewrite <- app_assoc.
  rewrite (span_exact is_word (k :: key)) by (exact Hkey || reflexivity).
  cbn [app]. rewrite Hc. cbn [Ascii.eqb Bool.eqb andb].
  change (c :: value ++ rest) with ((c :: value) ++ rest).
  rewrite (span_exact _ (c :: value) rest Hval).
  - replace ((k :: key) ++ (": " : str) ++ c :: value)
      with ((k :: key) ++ ":"%char :: " "%char :: c :: value) by reflexivity.
    reflexivity.
  - destruct rest as [|d rest]; [exact I|]. subst d. reflexivity.
Qed.

Lemma header_line_nonblank (h : str) :
  header_line h -> nonempty (strip h) = true.
Proof.
  intros Hh.
  destruct (header_line_shape h Hh) as (k & key & c & value & -> & Hkey & _ & _).
  inversion Hkey as [|? ? Hk _]; subst.
  apply is_word_not_space in Hk. unfold strip. cbn [app lstrip].
  rewrite Hk, (rstrip_cons _ _ Hk). reflexivity.
Qed.

Lemma header_line_length (h : str) : header_line h -> 0 < length h.
Proof.
  intros Hh.
  destruct (header_line_shape h Hh) as (k & key & c & value & -> & _).
  cbn [app length]. lia.
Qed.

Lemma split_from_header_block (hs : list str) (rest : str) :
  Forall header_line hs ->
  match rest with [] => True | c :: _ => c = newline end ->
  has_header false rest = false ->
  forall (chunk : str) (fuel : nat),
    nonempty (strip chunk) = false ->
    length (header_block hs rest) < fuel ->
    exists init,
      split_from fuel true chunk (header_block hs rest)
      = Some (init ++ [match hs with [] => chunk ++ rest | _ :: _ => rest end])
      /\ List.filter (fun x => nonempty (strip x)) init = hs.
Proof.
  intros Hhs Hshape Hrest.
  induction Hhs as [|h hs Hh Hhs IH]; intros chunk fuel Hchunk Hfuel.
  - cbn [header_block] in *.
    pose proof (has_header_after_match _ Hshape Hrest) as Htrue.
    destruct (split_from_spec fuel true chunk rest Hfuel) as (init & last & Hsp & Hcase).
    destruct Hcase as [(_ & -> & ->)|[Ht _]]; [|congruence].
    exists []. split; [exact Hsp|reflexivity].
  - destruct fuel as [|fuel]; [lia|].
    pose proof (header_line_length _ Hh) as Hlen.
    pose proof (header_line_nonblank _ Hh) as Hnb.
    destruct hs as [|h2 hs].
    + cbn [header_block] in *. cbn [split_from].
      rewrite (header_line_extend _ _ Hh Hshape).
      assert (Hl : length rest < fuel) by (rewrite length_app in Hfuel; lia).
      destruct (split_from_spec fuel false [] rest Hl) as (init & last & Hsp & Hcase).
      destruct Hcase as [(_ & -> & ->)|[Ht _]]; [|congruence].
      rewrite Hsp. exists [chunk; h]. split; [reflexivity|].
      cbn [List.filter]. rewrite Hchunk, Hnb. reflexivity.
    + change (header_block (h :: h2 :: hs) rest)
        with (h ++ newline :: header_block (h2 :: hs) rest) in *.
      cbn [split_from].
      rewrite (header_line_extend h (newline :: header_block (h2 :: hs) rest) Hh eq_refl).
      rewrite length_app in Hfuel. cbn [length] in Hfuel.
      destruct fuel as [|fuel]; [lia|]. cbn [split_from].
      change (Ascii.eqb newline newline) with true. cbn [app].
      destruct (IH [newline] fuel eq_refl) as (init & Hsp & Hf); [lia|].
      rewrite Hsp. exists (chunk :: h :: init). split; [reflexivity|].
      cbn [List.filter]. rewrite Hchunk, Hnb, Hf. reflexivity.
Qed.

(** X3. A text made of header lines, one per line, followed by nothing or
    by a newline and text in which no line matches the header pattern, is
    parsed as documented: the attributes are exactly the header lines, in
    order, and the body is the rest, stripped. *)
Theorem parse_content_header_block (hs : list str) (rest : str) :
  Forall header_line hs ->
  match rest with [] => True | c :: _ => c = newline end ->
  has_header true rest = false ->
  Legacy.parse_content (header_block hs rest) = Ok (hs, strip rest).
Proof.
  intros Hhs Hshape Hrest.
  destruct (split_from_header_block hs rest Hhs Hshape
              (has_header_weaken _ _ Hrest) [] (S (length (header_block hs rest)))
              eq_refl) as (init & Hsp & Hf); [lia|].
  unfold Legacy.parse_content, re_split. rewrite Hsp, pop_snoc.
  cbn [bind]. rewrite Hf. destruct hs; reflexivity.
Qed.

Lemma parse_content_header_block_witness :
  Legacy.parse_content
    (header_block [("title: Hello World" : str); ("tags: a, B" : str)]
       (joinlines [""; ""; "Body text: more"; " note: x"]))
  = Ok ([("title: Hello World" : str); ("tags: a, B" : str)],
        strip (joinlines [""; ""; "Body text: more"; " note: x"])).
Proof.
  apply parse_content_header_block.
  - repeat constructor.
  - reflexivity.
  - reflexivity.
Defined.

Lemma is_word_not_colon (c : ascii) :
  is_word c = true -> Ascii.eqb ":" c = false.
Proof. destruct c as [[] [] [] [] [] [] [] []]; vm_compute; congruence. Qed.

Lemma split1_acc_key (key rest : str) :
  Forall (fun x => is_word x = true) key ->
  forall cur,
    split1_acc ": " cur (key ++ ":"%char :: " "%char :: rest)
    = [cur ++ key; rest].
Proof.
  intros Hkey. induction Hkey as [|k key Hk Hkey IH]; intros cur.
  - rewrite app_nil_r. destruct rest; reflexivity.
  - cbn [app split1_acc].
    change (startswith ": " (k :: key ++ ":"%char :: " "%char :: rest))
      with (Ascii.eqb ":" k
            && startswith " " (key ++ ":"%char :: " "%char :: rest)).
    rewrite (is_word_not_colon _ Hk). cbn [andb].
    rewrite IH, <- app_assoc. reflexivity.
Qed.

(** X4. A line that [base_matcher] matches always unpacks in the attribute
    loop: cutting it at the first [": "] gives a name made of word
    characters only, not empty, and a value that is not blank; the
    attribute is stored under the lower-cased name. *)
Theorem header_line_unpacks (h : str) :
  header_line h ->
  exists name value,
    split1 ": " h = [name; value] /\
    h = name ++ ": " ++ value /\
    name <> [] /\
    Forall (fun c => is_word c = true) name /\
    nonempty (strip value) = true /\
    Legacy.attr_name h = Some (lower name).
Proof.
  intros Hh.
  destruct (header_line_shape h Hh) as (k & key & c & value & -> & Hkey & Hc & _).
  assert (Hsplit : split1 ": " ((k :: key) ++ ":"%char :: " "%char :: c :: value)
                   = [k :: key; c :: value]).
  { unfold split1. rewrite (split1_acc_key _ _ Hkey). reflexivity. }
  exists (k :: key), (c :: value). split; [exact Hsplit|].
  split; [reflexivity|]. split; [discriminate|]. split; [exact Hkey|]. split.
  - apply is_word_not_space in Hc. unfold strip. cbn [lstrip].
    rewrite Hc, (rstrip_cons _ _ Hc). reflexivity.
  - unfold Legacy.attr_name. rewrite Hsplit. reflexivity.
Qed.

Lemma header_line_unpacks_witness :
  exists name value,
    split1 ": " ("Title: Hello World: again" : str) = [name; value] /\
    ("Title: Hello World: again" : str) = name ++ ": " ++ value /\
    name <> [] /\
    Forall (fun c => is_word c = true) name /\
    nonempty (strip value) = true /\
    Legacy.attr_name "Title: Hello World: again" = Some (lower name).
Proof. apply header_line_unpacks. reflexivity. Defined.

(** ** Construction, step by step *)

Lemma legacy_set_attr_accepts (self self' : Legacy.Page) (attr : str) :
  Legacy.set_attr self attr = Ok self' ->
  exists n, Legacy.attr_name attr = Some n /\ ~ In n legacy_read_only.
Proof.
  unfold Legacy.set_attr, Legacy.attr_name.
  destruct (split1 ": " attr) as [|name [|value [|]]]; try discriminate.
  intros H. bind_inv H la Hla. bind_inv H listed Hl.
  exists (lower name). split; [reflexivity|].
  unfold Legacy.setattr in H.
  destruct (bool_decide (lower name ∈ [("content" : str); ("html" : str);
                                       ("__weakref__" : str)])) eqn:E1;
    [discriminate|].
  destruct (bool_decide (lower name ∈ [("__class__" : str); ("__dict__" : str)]))
    eqn:E2; [discriminate|].
  apply bool_decide_eq_false_1 in E1, E2.
  rewrite list_elem_of_In in E1, E2.
  unfold legacy_read_only. cbn [In] in *. tauto.
Qed.

Lemma legacy_set_attrs_accepts (attrs : list str) :
  forall self self',
    Legacy.set_attrs self attrs = Ok self' ->
    Forall (fun a => exists n, Legacy.attr_name a = Some n /\
                               ~ In n legacy_read_only) attrs.
Proof.
  induction attrs as [|a attrs IH]; intros self self' H; [constructor|].
  cbn [Legacy.set_attrs] in H. bind_inv H self1 H1. constructor.
  - exact (legacy_set_attr_accepts _ _ _ H1).
  - exact (IH _ _ H).
Qed.

Section LegacySteps.

Variable read_text : str -> result str.
Variable markdown : str -> str.

Lemma legacy_init_steps (cls : Legacy.PageClass) (content_path : option str)
    (content : str) (no_index : bool) (p : Legacy.Page) :
  Legacy.Page_init read_text markdown cls content_path content no_index = Ok p ->
  exists text attrs body self1 self3 s routes route c,
    Legacy.resolve_content read_text
      (Legacy.store {| Legacy.page_class := cls; Legacy.page_dict := ∅ |}
         "no_index" (VBool no_index)) content_path content = Ok text /\
    Legacy.parse_content text = Ok (attrs, body) /\
    Legacy.set_attrs
      (Legacy.store
         (Legacy.store {| Legacy.page_class := cls; Legacy.page_dict := ∅ |}
            "no_index" (VBool no_index)) "_content" (VStr body)) attrs
    = Ok self1 /\
    (forall k : str, k <> "title" -> k <> "slug" ->
       Legacy.getattr self3 k = Legacy.getattr self1 k) /\
    Legacy.getattr self3 "slug" = Some (VStr s) /\
    Legacy.Page_content markdown (Legacy.store self3 "slug" (VStr (slug_text s)))
    = Ok c /\
    Legacy.getattr self3 "routes" = Some routes /\
    first_item routes = Ok route /\
    p = Legacy.store (Legacy.store self3 "slug" (VStr (slug_text s)))
          "url" (VStr (route ++ "/" ++ slug_text s)).
Proof.
  unfold Legacy.Page_init. cbv zeta. intros H.
  bind_inv H selfa Ha. bind_inv H text Ht. bind_inv H ab Hab.
  destruct ab as [attrs body].
  bind_inv H self0 H0. bind_inv H self1 H1. bind_inv H self2 H2.
  bind_inv H self3 H3. bind_inv H slug Hslug.
  destruct slug as [| |s|]; try discriminate.
  bind_inv H self4 H4. bind_inv H c Hc. bind_inv H routes Hr.
  bind_inv H route Hroute.
  apply legacy_setattr_ok in Ha, H0, H4, H. subst selfa self0 self4 p.
  exists text, attrs, body, self1, self3, s, routes, route, c.
  split; [exact Ht|]. split; [exact Hab|]. split; [exact H1|].
  assert (H21 : forall k : str, k <> "title" ->
                  Legacy.getattr self2 k = Legacy.getattr self1 k).
  { intros k Hk. revert H2.
    destruct (Legacy.hasattr self1 "title"); intros H2.
    - inversion H2. reflexivity.
    - apply legacy_setattr_ok in H2. subst self2.
      apply legacy_getattr_store. congruence. }
  assert (H32 : forall k : str, k <> "slug" ->
                  Legacy.getattr self3 k = Legacy.getattr self2 k).
  { intros k Hk. revert H3.
    destruct (Legacy.hasattr self2 "slug"); intros H3.
    - inversion H3. reflexivity.
    - bind_inv H3 t Htt. apply legacy_setattr_ok in H3. subst self3.
      apply legacy_getattr_store. congruence. }
  split; [intros k Hk1 Hk2; rewrite H32, H21; auto|].
  split.
  { unfold Legacy.attribute in Hslug.
    destruct (Legacy.getattr self3 "slug"); inversion Hslug. reflexivity. }
  split; [exact Hc|]. split; [|split; [exact Hroute|reflexivity]].
  unfold Legacy.attribute in Hr.
  rewrite legacy_getattr_store in Hr by str_neq.
  destruct (Legacy.getattr self3 "routes"); inversion Hr. reflexivity.
Qed.

(** X5. [Page.__init__] returns a page only if every entry of the parsed
    attributes list unpacks as [name: value] and its lower-cased name is
    none of [content], [html], [__weakref__], [__class__], [__dict__]:
    with any other entry the constructor raises. *)
Theorem legacy_init_accepts (cls : Legacy.PageClass)
    (content_path : option str) (content : str) (no_index : bool)
    (attrs : list str) (p : Legacy.Page) :
  Legacy.Page_init read_text markdown cls content_path content no_index = Ok p ->
  Legacy.Page_attrs read_text cls content_path content no_index = Ok attrs ->
  Forall (fun a => exists n, Legacy.attr_name a = Some n /\
                             ~ In n legacy_read_only) attrs.
Proof.
  intros H Hattrs.
  destruct (legacy_init_steps _ _ _ _ _ H)
    as (text & attrs' & body & self1 & self3 & s & routes & route & c
        & Ht & Hp & Hloop & _).
  unfold Legacy.Page_attrs in Hattrs. cbv zeta in Hattrs.
  bind_inv Hattrs selfa Ha. apply legacy_setattr_ok in Ha. subst selfa.
  rewrite Ht in Hattrs. cbn [bind] in Hattrs. rewrite Hp in Hattrs.
  cbn [bind] in Hattrs. inversion Hattrs; subst attrs'.
  exact (legacy_set_attrs_accepts _ _ _ Hloop).
Qed.

(** X6. On every page that [Page.__init__] returns, [url] is the first
    item of the page's [routes], a slash, and the text that [__str__]
    returns, which is the slug. *)
Theorem legacy_url_route_slug (cls : Legacy.PageClass)
    (content_path : option str) (content : str) (no_index : bool)
    (p : Legacy.Page) :
  Legacy.Page_init read_text markdown cls content_path content no_index = Ok p ->
  exists routes route s,
    Legacy.getattr p "routes" = Some routes /\
    first_item routes = Ok route /\
    Legacy.Page_str p = Ok (VStr s) /\
    Legacy.getattr p "url" = Some (VStr (route ++ "/" ++ s)).
Proof.
  intros H.
  destruct (legacy_init_steps _ _ _ _ _ H)
    as (text & attrs' & body & self1 & self3 & s & routes & route & c
        & _ & _ & _ & _ & _ & _ & Hr & Hroute & ->).
  exists routes, route, (slug_text s).
  split; [|split; [exact Hroute|split]].
  - rewrite !legacy_getattr_store by str_neq. exact Hr.
  - unfold Legacy.Page_str, Legacy.attribute.
    rewrite legacy_getattr_store by str_neq.
    unfold Legacy.getattr, Legacy.store. cbn [Legacy.page_dict].
    rewrite lookup_insert_eq. reflexivity.
  - unfold Legacy.getattr, Legacy.store. cbn [Legacy.page_dict].
    rewrite lookup_insert_eq. reflexivity.
Qed.

End LegacySteps.

Lemma legacy_init_accepts_witness :
  Forall (fun a => exists n, Legacy.attr_name a = Some n /\
                             ~ In n legacy_read_only)
    [("title: Hello World" : str); ("tags: a, B" : str)].
Proof.
  exact (legacy_init_accepts no_files plain_markdown Legacy.Page_class None
           (joinlines ["title: Hello World"; "tags: a, B"; ""; "Body text."])
           false [("title: Hello World" : str); ("tags: a, B" : str)]
           (legacy_page Legacy.Page_class
              (joinlines ["title: Hello World"; "tags: a, B"; ""; "Body text."]))
           eq_refl eq_refl).
Defined.

Lemma legacy_url_route_slug_witness :
  exists routes route s,
    Legacy.getattr
      (legacy_page Legacy.Page_class
         (joinlines ["title: Hello World"; "routes: blog"; ""; "Body text."]))
      "routes" = Some routes /\
    first_item routes = Ok route /\
    Legacy.Page_str
      (legacy_page Legacy.Page_class
         (joinlines ["title: Hello World"; "routes: blog"; ""; "Body text."]))
    = Ok (VStr s) /\
    Legacy.getattr
      (legacy_page Legacy.Page_class
         (joinlines ["title: Hello World"; "routes: blog"; ""; "Body text."]))
      "url" = Some (VStr (route ++ "/" ++ s)).
Proof.
  exact (legacy_url_route_slug no_files plain_markdown Legacy.Page_class None
           (joinlines ["title: Hello World"; "routes: blog"; ""; "Body text."])
           false _ eq_refl).
Defined.

(** A [routes: blog] line of the document replaces the routes of the
    class by a string, and [routes[0]] is then its first character. *)
Example legacy_routes_attribute (rt : str -> result str) (md : str -> str) :
  match Legacy.Page_init rt md Legacy.Page_class None
          (joinlines ["title: Hello World"; "routes: blog"; ""; "Body text."])
          false with
  | Ok p => Legacy.getattr p "url"
  | Raise _ => None
  end = Some (VStr "b/hello_world").
Proof. reflexivity. Qed.

(** ** The slug of the first revision *)

Lemma slug_char_fixed (c : ascii) :
  (if Ascii.eqb
        (lower_char (if Ascii.eqb (lower_char c) " " then "_"%char
                     else lower_char c)) " "
   then "_"%char
   else lower_char (if Ascii.eqb (lower_char c) " " then "_"%char
                    else lower_char c))
  = (if Ascii.eqb (lower_char c) " " then "_"%char else lower_char c).
Proof. destruct c as [[] [] [] [] [] [] [] []]; reflexivity. Qed.

Lemma filter_fixed {A} (f : A -> bool) (l : list A) :
  Forall (fun x => f x = true) l -> List.filter f l = l.
Proof.
  induction 1 as [|x l Hx Hl IH]; [reflexivity|].
  cbn [List.filter]. rewrite Hx, IH. reflexivity.
Qed.

Lemma map_fixed {A} (f : A -> A) (l : list A) :
  Forall (fun x => f x = x) l -> map f l = l.
Proof.
  induction 1 as [|x l Hx Hl IH]; [reflexivity|].
  cbn [map]. rewrite Hx, IH. reflexivity.
Qed.

Lemma slug_text_idem (s : str) : slug_text (slug_text s) = slug_text s.
Proof.
  unfold slug_text, re_sub_punct, replace, lower.
  rewrite List.map_map.
  set (f := fun c => if Ascii.eqb (lower_char c) " " then "_"%char
                     else lower_char c).
  set (np := fun c => negb (is_slug_punct c)).
  rewrite List.map_map. fold f.
  assert (Hmap : map f (List.filter np (map f s)) = List.filter np (map f s)).
  { apply map_fixed. apply List.Forall_forall. intros d Hd.
    apply List.filter_In in Hd as [Hd _].
    apply List.in_map_iff in Hd as (c & <- & _). apply slug_char_fixed. }
  rewrite Hmap. apply filter_fixed. apply List.Forall_forall.
  intros d Hd. apply List.filter_In in Hd. apply Hd.
Qed.

Section LegacyMore.

Variable read_text : str -> result str.
Variable markdown : str -> str.

(** X7. The slug of a page is a fixed point of the slug derivation of
    [Page.__init__] (lower-casing, spaces to underscores, removal of
    [!], [[], []], [(], [)]): deriving a slug from a slug changes
    nothing. *)
Theorem legacy_slug_fixed_point (cls : Legacy.PageClass)
    (content_path : option str) (content : str) (no_index : bool)
    (p : Legacy.Page) :
  Legacy.Page_init read_text markdown cls content_path content no_index = Ok p ->
  exists source s,
    Legacy.Page_str p = Ok (VStr s) /\
    s = slug_text source /\
    slug_text s = s.
Proof.
  intros H.
  destruct (legacy_init_steps _ _ _ _ _ _ _ H)
    as (text & attrs' & body & self1 & self3 & s & routes & route & c
        & _ & _ & _ & _ & _ & _ & _ & _ & ->).
  exists s, (slug_text s). split; [|split; [reflexivity|apply slug_text_idem]].
  unfold Legacy.Page_str, Legacy.attribute.
  rewrite legacy_getattr_store by str_neq.
  unfold Legacy.getattr, Legacy.store. cbn [Legacy.page_dict].
  rewrite lookup_insert_eq. reflexivity.
Qed.

Lemma legacy_resolve_fresh (self : Legacy.Page) (v : value)
    (content_path : option str) (content : str) :
  Legacy.resolve_content read_text (Legacy.store self "no_index" v)
    content_path content
  = Legacy.resolve_content read_text self content_path content.
Proof.
  unfold Legacy.resolve_content.
  rewrite legacy_getattr_store by str_neq. reflexivity.
Qed.

(** X8. The properties [html] and [content] of a constructed page whose
    document has no [_content] attribute: [html] is the markdown
    conversion of the parsed body, and [content] is the same, except
    that an empty body gives the empty string. *)
Theorem legacy_content_of_body (cls : Legacy.PageClass)
    (content_path : option str) (content text body : str) (no_index : bool)
    (attrs : list str) (p : Legacy.Page) :
  Legacy.resolve_content read_text
    {| Legacy.page_class := cls; Legacy.page_dict := ∅ |} content_path content
  = Ok text ->
  Legacy.parse_content text = Ok (attrs, body) ->
  Forall (fun a => Legacy.attr_name a <> Some ("_content" : str)) attrs ->
  Legacy.Page_init read_text markdown cls content_path content no_index = Ok p ->
  Legacy.Page_html markdown p = Ok (markdown body) /\
  Legacy.Page_content markdown p
  = Ok (if nonempty body then markdown body else []).
Proof.
  intros Ht Hp Hall H.
  destruct (legacy_init_steps _ _ _ _ _ _ _ H)
    as (text' & attrs' & body' & self1 & self3 & s & routes & route & c
        & Ht' & Hp' & Hloop & H31 & _ & _ & _ & _ & ->).
  rewrite legacy_resolve_fresh, Ht in Ht'. inversion Ht'; subst text'.
  rewrite Hp in Hp'. inversion Hp'; subst attrs' body'.
  destruct (legacy_set_attrs_other _ _ _ _ Hloop Hall) as [Hc _].
  assert (Hget : Legacy.getattr
                   (Legacy.store (Legacy.store self3 "slug" (VStr (slug_text s)))
                      "url" (VStr (route ++ "/" ++ slug_text s))) "_content"
                 = Some (VStr body)).
  { rewrite !legacy_getattr_store by str_neq.
    rewrite H31 by str_neq. unfold Legacy.getattr. rewrite Hc.
    unfold Legacy.store. cbn [Legacy.page_dict].
    rewrite lookup_insert_eq. reflexivity. }
  unfold Legacy.Page_content, Legacy.Page_html, Legacy.attribute.
  rewrite Hget. cbn [bind truthy]. split; [reflexivity|].
  destruct (nonempty body); reflexivity.
Qed.

Lemma legacy_setattr_no_index (self : Legacy.Page) (v : value) :
  Legacy.setattr self "no_index" v = Ok (Legacy.store self "no_index" v).
Proof. reflexivity. Qed.

(** X9. Where [Page.__init__] takes its text from.  A [content_path] of
    the class makes both arguments irrelevant; failing that, a non-empty
    [content_path] argument makes the [content] argument irrelevant; and
    when the file cannot be read the constructor raises the error of the
    read. *)
Theorem legacy_source_precedence (cls : Legacy.PageClass) (path : str)
    (no_index : bool) :
  (forall v cp cp' c c',
     Legacy.cls_dict cls !! ("content_path" : str) = Some v ->
     Legacy.Page_init read_text markdown cls cp c no_index
     = Legacy.Page_init read_text markdown cls cp' c' no_index) /\
  (Legacy.cls_dict cls !! ("content_path" : str) = None ->
   nonempty path = true ->
   (forall c c',
      Legacy.Page_init read_text markdown cls (Some path) c no_index
      = Legacy.Page_init read_text markdown cls (Some path) c' no_index) /\
   (forall e c, read_text path = Raise e ->
      Legacy.Page_init read_text markdown cls (Some path) c no_index
      = Raise e)).
Proof.
  assert (Hg : forall v : value,
             Legacy.getattr
               (Legacy.store {| Legacy.page_class := cls; Legacy.page_dict := ∅ |}
                  "no_index" v) "content_path"
             = Legacy.cls_dict cls !! ("content_path" : str)).
  { intros v. rewrite legacy_getattr_store by str_neq.
    unfold Legacy.getattr. cbn [Legacy.page_dict Legacy.page_class].
    rewrite lookup_empty. reflexivity. }
  split.
  - intros v cp cp' c c' Hv. unfold Legacy.Page_init. cbv zeta.
    rewrite legacy_setattr_no_index. cbn [bind].
    unfold Legacy.resolve_content. rewrite Hg, Hv. reflexivity.
  - intros Hnone Hpath.
    assert (Hres : forall c,
               Legacy.resolve_content read_text
                 (Legacy.store {| Legacy.page_class := cls; Legacy.page_dict := ∅ |}
                    "no_index" (VBool no_index)) (Some path) c
               = read_text path).
    { intros c. unfold Legacy.resolve_content. rewrite Hg, Hnone, Hpath.
      reflexivity. }
    split.
    + intros c c'. unfold Legacy.Page_init. cbv zeta.
      rewrite legacy_setattr_no_index. cbn [bind]. rewrite !Hres. reflexivity.
    + intros e c He. unfold Legacy.Page_init. cbv zeta.
      rewrite legacy_setattr_no_index. cbn [bind]. rewrite Hres, He.
      reflexivity.
Qed.

End LegacyMore.

Lemma legacy_slug_fixed_point_witness :
  exists source s,
    Legacy.Page_str
      (legacy_page Legacy.Page_class
         (joinlines ["title: Hello (World)!"; ""; "Body text."]))
    = Ok (VStr s) /\
    s = slug_text source /\
    slug_text s = s.
Proof.
  exact (legacy_slug_fixed_point no_files plain_markdown Legacy.Page_class None
           (joinlines ["title: Hello (World)!"; ""; "Body text."]) false _
           eq_refl).
Defined.

Lemma legacy_content_of_body_witness :
  Legacy.Page_html plain_markdown
    (legacy_page Legacy.Page_class (joinlines ["title: Only a header"]))
  = Ok (plain_markdown []) /\
  Legacy.Page_content plain_markdown
    (legacy_page Legacy.Page_class (joinlines ["title: Only a header"]))
  = Ok [].
Proof.
  refine (legacy_content_of_body no_files plain_markdown Legacy.Page_class None
            (joinlines ["title: Only a header"])
            (joinlines ["title: Only a header"]) [] false
            [("title: Only a header" : str)] _ eq_refl eq_refl _ eq_refl).
  constructor; [|constructor]. intros E. vm_compute in E. discriminate E.
Defined.

Lemma legacy_source_precedence_witness :
  Legacy.Page_init no_files plain_markdown Legacy.Page_class
    (Some ("post.md" : str)) "title: Ignored" false
  = Raise OSError.
Proof.
  exact (proj2 (proj2 (legacy_source_precedence no_files plain_markdown
                         Legacy.Page_class "post.md" false) eq_refl eq_refl)
           OSError "title: Ignored" eq_refl).
Defined.

(** * Further properties of the second revision *)

Section CurrentMore.

Variable slugify : str -> str.
Variable get_template : Current.Env -> value -> result Current.Template.
Variable render : Current.Template -> gmap str value -> result str.
Variable parse_content_path : value -> result str.
Variable parse_content : value -> result (list (str * value) * str).
Variable parser_markup : Current.Page -> value -> result str.

Lemma current_getattr_store_eq (self : Current.Page) (n : str) (v : value) :
  Current.getattr (Current.store self n v) n = Some v.
Proof.
  unfold Current.getattr, Current.store. cbn [Current.page_dict].
  rewrite lookup_insert_eq. reflexivity.
Qed.

(** X10. An extension written without its dot gives the same suffix as the
    extension written with it: on a page whose [extension] is [e], not
    beginning with [.], and on the page whose [extension] is [.e],
    [_extension] is [.e]. *)
Theorem extension_with_or_without_dot (self : Current.Page) (e : str) :
  startswith "." e = false ->
  Current._extension (Current.store self "extension" (VStr e))
  = Ok ("." ++ e) /\
  Current._extension (Current.store self "extension" (VStr ("." ++ e)))
  = Ok ("." ++ e).
Proof.
  intros He. unfold Current._extension, Current.attribute.
  rewrite !current_getattr_store_eq. cbn [bind]. rewrite He.
  split; reflexivity.
Qed.

Lemma current_slug_cached (self self' : Current.Page) (s : str) :
  Current.slug slugify self = Ok (s, self') ->
  exists v,
    Current.getattr self' "_slug" = Some (VStr v) /\ s = slugify v /\
    (self' = self \/ self' = Current.store self "_slug" (Current.title self)).
Proof.
  unfold Current.slug. intros H.
  destruct (Current.hasattr self "_slug") eqn:Eh.
  - bind_inv H v Hv. bind_inv H s' Hs. inversion H; subst s' self'; clear H.
    unfold Current.attribute in Hv.
    destruct (Current.getattr self "_slug") as [w|] eqn:Eg; inversion Hv; subst w.
    destruct v; try discriminate. inversion Hs. eauto.
  - bind_inv H v Hv. bind_inv H s' Hs. inversion H; subst s' self'; clear H.
    unfold Current.attribute in Hv. rewrite current_getattr_store_eq in Hv.
    inversion Hv; subst v.
    destruct (Current.title self) eqn:Et; try discriminate. inversion Hs.
    exists s0. rewrite current_getattr_store_eq. auto.
Qed.

Lemma current_slug_of_cached (self : Current.Page) (v : str) :
  Current.getattr self "_slug" = Some (VStr v) ->
  Current.slug slugify self = Ok (slugify v, self).
Proof.
  intros Hg. unfold Current.slug, Current.hasattr, Current.attribute.
  rewrite Hg. cbn [bind Current.py_slugify]. rewrite Hg. reflexivity.
Qed.

(** X11. Reading [slug] (or calling [__str__]) a second time returns the
    same slug and leaves the page as the first reading left it. *)
Theorem slug_read_twice (self self' : Current.Page) (s : str) :
  Current.Page_str slugify self = Ok (s, self') ->
  Current.Page_str slugify self' = Ok (s, self') /\
  Current.slug slugify self' = Ok (s, self').
Proof.
  unfold Current.Page_str. intros H.
  destruct (current_slug_cached _ _ _ H) as (v & Hg & -> & _).
  rewrite (current_slug_of_cached _ _ Hg). split; reflexivity.
Qed.



End CurrentMore.

Lemma extension_with_or_without_dot_witness :
  Current._extension (Current.store bare_page "extension" (VStr "md"))
  = Ok (".md" : str) /\
  Current._extension (Current.store bare_page "extension" (VStr ".md"))
  = Ok (".md" : str).
Proof. exact (extension_with_or_without_dot bare_page "md" eq_refl). Defined.

Lemma slug_read_twice_witness :
  Current.Page_str sample_slugify
    (Current.store bare_page "_slug" (VStr "Page"))
  = Ok (("page" : str), Current.store bare_page "_slug" (VStr "Page")) /\
  Current.slug sample_slugify (Current.store bare_page "_slug" (VStr "Page"))
  = Ok (("page" : str), Current.store bare_page "_slug" (VStr "Page")).
Proof.
  exact (slug_read_twice sample_slugify bare_page
           (Current.store bare_page "_slug" (VStr "Page")) "page" eq_refl).
Defined.


Section CurrentContext.

Variable slugify : str -> str.
Variable get_template : Current.Env -> value -> result Current.Template.
Variable render : Current.Template -> gmap str value -> result str.
Variable parse_content_path : value -> result str.
Variable parse_content : value -> result (list (str * value) * str).
Variable parser_markup : Current.Page -> value -> result str.



(** X17. Where the second revision takes its text from.  A non-empty
    [content_path] argument makes the [content] argument irrelevant, and
    so does, without such an argument, a [content_path] of the class that
    counts as true; the text is then what [parse_content_path] returns,
    and an error of [parse_content_path] is the error of the
    constructor. *)
Theorem current_source_precedence (cls : Current.PageClass) :
  (forall path c c',
     nonempty path = true ->
     Current.Page_init slugify parse_content_path parse_content cls c
       (Some path)
     = Current.Page_init slugify parse_content_path parse_content cls c'
         (Some path)) /\
  (forall v c c',
     Current.cls_dict cls !! ("content_path" : str) = Some v ->
     truthy v = true ->
     Current.Page_init slugify parse_content_path parse_content cls c None
     = Current.Page_init slugify parse_content_path parse_content cls c' None) /\
  (forall path c e,
     nonempty path = true ->
     parse_content_path (VStr path) = Raise e ->
     Current.Page_init slugify parse_content_path parse_content cls c
       (Some path) = Raise e).
Proof.
  assert (Hg : forall k : str,
             Current.getattr
               {| Current.page_class := cls; Current.page_dict := ∅ |} k
             = Current.cls_dict cls !! k).
  { intros k. unfold Current.getattr.
    cbn [Current.page_dict Current.page_class].
    rewrite lookup_empty. reflexivity. }
  assert (Hsome : forall (path : str) (a : option value),
             nonempty path = true ->
             Current.or_attr (Some path) a = VStr path).
  { intros path a Hp. unfold Current.or_attr. rewrite Hp. reflexivity. }
  split; [|split].
  - intros path c c' Hp. unfold Current.Page_init. cbv zeta.
    rewrite !(Hsome path _ Hp). cbn [truthy]. rewrite Hp. reflexivity.
  - intros v c c' Hv Ht. unfold Current.Page_init. cbv zeta.
    rewrite (Hg "content_path"), Hv. cbn [Current.or_attr]. rewrite Ht.
    reflexivity.
  - intros path c e Hp He. unfold Current.Page_init. cbv zeta.
    rewrite !(Hsome path _ Hp). cbn [truthy]. rewrite Hp, He. reflexivity.
Qed.


End CurrentContext.

Section CurrentRender.

Variable slugify : str -> str.
Variable get_template : Current.Env -> value -> result Current.Template.
Variable render : Current.Template -> gmap str value -> result str.
Variable parser_markup : Current.Page -> value -> result str.

(** X19. Rendering through a template.  When the page has a template that
    counts as true and an engine that finds it, the template is rendered
    with a context in which the keyword arguments come first; then, for a
    page with content, [content] is the markup of the page; and every
    other key is as [to_dict] gives it. *)
Theorem render_context_precedence (self self' : Current.Page)
    (engine : option Current.Env) (e : Current.Env)
    (kwargs d : gmap str value) (template : value) (t : Current.Template) :
  Current.getattr self "template" = Some template ->
  truthy template = true ->
  Current.getattr_engine self engine = Current.Engine e ->
  get_template e template = Ok t ->
  Current.to_dict slugify self = Ok (d, self') ->
  match Current.getattr self "content" with
  | Some _ =>
      forall m, Current.markup parser_markup self' = Ok (Some m) ->
      exists context,
        Current._render_content slugify get_template render parser_markup
          self engine kwargs
        = (let* out := render t context in Ok (Some out)) /\
        forall k : str,
          context !! k =
          match kwargs !! k with
          | Some v => Some v
          | None => if bool_decide (k = ("content" : str))
                    then Some (VStr m) else d !! k
          end
  | None =>
      exists context,
        Current._render_content slugify get_template render parser_markup
          self engine kwargs
        = (let* out := render t context in Ok (Some out)) /\
        forall k : str,
          context !! k =
          match kwargs !! k with
          | Some v => Some v
          | None => d !! k
          end
  end.
Proof.
  intros Ht Htruthy He Hget Hd.
  unfold Current._render_content, Current.attribute, Current.hasattr.
  rewrite Ht, He. cbn [bind Current.engine_truthy Current.engine_get_template].
  rewrite Htruthy. cbn [andb].
  destruct (Current.getattr self "content") as [c|].
  - intros m Hm. rewrite Hget. cbn [bind]. rewrite Hd. cbn [bind].
    rewrite Hm. cbn [bind Current.option_value].
    eexists. split; [reflexivity|]. intros k.
    rewrite lookup_union.
    destruct (kwargs !! k) as [v|].
    + destruct (<[("content" : str):=VStr m]> d !! k); reflexivity.
    + destruct (bool_decide (k = ("content" : str))) eqn:Ek.
      * apply bool_decide_eq_true_1 in Ek. subst k.
        rewrite lookup_insert_eq. reflexivity.
      * apply bool_decide_eq_false_1 in Ek.
        rewrite lookup_insert_ne by congruence.
        destruct (d !! k); reflexivity.
  - rewrite Hget. cbn [bind]. rewrite Hd. cbn [bind].
    eexists. split; [reflexivity|]. intros k.
    rewrite lookup_union.
    destruct (kwargs !! k), (d !! k); reflexivity.
Qed.

End CurrentRender.


(** A document with a [url] attribute cannot become a page of the second
    revision: the loop raises [AttributeError]. *)
Example current_url_attribute_raises (slugify : str -> str) (v : value) :
  Current.set_attrs slugify (VList [("slug" : str)]) bare_page
    [(("URL" : str), v)]
  = Raise AttributeError.
Proof. reflexivity. Qed.

Lemma current_source_precedence_witness :
  Current.Page_init sample_slugify no_content_path no_content_parser
    Current.Page_class (Some ("title: Ignored" : str)) (Some ("post.md" : str))
  = Raise OSError.
Proof.
  exact (proj2 (proj2 (current_source_precedence sample_slugify
                         no_content_path no_content_parser Current.Page_class))
           "post.md" (Some ("title: Ignored" : str)) OSError eq_refl eq_refl).
Defined.


Lemma render_context_precedence_witness :
  exists context,
    Current._render_content sample_slugify one_template content_render
      sample_markup article None
      (<[("content" : str) := VStr "Override"]> ∅)
    = (let* out := content_render (Current.TemplateObject 0) context in
       Ok (Some out)) /\
    forall k : str,
      context !! k =
      match (<[("content" : str) := VStr "Override"]> ∅ : gmap str value) !! k with
      | Some v => Some v
      | None =>
          if bool_decide (k = ("content" : str)) then Some (VStr "Body")
          else match Current.to_dict sample_slugify article with
               | Ok (d, _) => d !! k
               | Raise _ => None
               end
      end.
Proof.
  exact (render_context_precedence sample_slugify one_template content_render
           sample_markup article
           (Current.store article "_slug" (VStr "Article"))
           None (Current.Environment 0)
           (<[("content" : str) := VStr "Override"]> ∅)
           _ (VStr "page.html") (Current.TemplateObject 0)
           eq_refl eq_refl eq_refl eq_refl eq_refl "Body" eq_refl).
Defined.

(** The keyword argument [content] hides the page's own markup. *)
Example render_kwargs_override :
  Current._render_content sample_slugify one_template content_render
    sample_markup article None (<[("content" : str) := VStr "Override"]> ∅)
  = Ok (Some ("Override" : str)) /\
  Current._render_content sample_slugify one_template content_render
    sample_markup article None ∅
  = Ok (Some ("Body" : str)).
Proof. split; reflexivity. Qed.

(** * Further properties of construction in the first revision *)

Section LegacyDefaults.

Variable read_text : str -> result str.
Variable markdown : str -> str.

(** X20. A text in which no line matches the header pattern always makes
    a page of the class [Page]: the constructor raises nothing, the body
    is the text stripped, the title is the class name [Page], the slug is
    [page] and the url is [/page]. *)
Theorem legacy_plain_text_page (text : str) (no_index : bool) :
  has_header true text = false ->
  Legacy.Page_init read_text markdown Legacy.Page_class None text no_index
  = Ok (Legacy.store
          (Legacy.store
             (Legacy.store
                (Legacy.store
                   (Legacy.store
                      {| Legacy.page_class := Legacy.Page_class;
                         Legacy.page_dict := ∅ |}
                      "no_index" (VBool no_index))
                   "_content" (VStr (strip text)))
                "title" (VStr "Page"))
             "slug" (VStr "page"))
          "url" (VStr "/page")).
Proof.
  intros Hh. unfold Legacy.Page_init. cbv zeta.
  rewrite legacy_setattr_no_index. cbn [bind].
  assert (Hres : Legacy.resolve_content read_text
                   (Legacy.store
                      {| Legacy.page_class := Legacy.Page_class;
                         Legacy.page_dict := ∅ |} "no_index" (VBool no_index))
                   None text = Ok text) by reflexivity.
  rewrite Hres. cbn [bind]. rewrite (parse_content_no_header _ Hh).
  cbn [bind]. generalize (strip text). intros body.
  destruct body; reflexivity.
Qed.

Lemma legacy_init_slug_source (cls : Legacy.PageClass)
    (content_path : option str) (content : str) (no_index : bool)
    (p : Legacy.Page) :
  Legacy.Page_init read_text markdown cls content_path content no_index = Ok p ->
  exists attrs self0 self1 self2 s,
    Legacy.Page_attrs read_text cls content_path content no_index = Ok attrs /\
    Legacy.page_dict self0 !! ("slug" : str) = None /\
    Legacy.page_class self0 = cls /\
    Legacy.set_attrs self0 attrs = Ok self1 /\
    Legacy.page_class self2 = Legacy.page_class self1 /\
    Legacy.page_dict self2 !! ("slug" : str)
    = Legacy.page_dict self1 !! ("slug" : str) /\
    (if Legacy.hasattr self2 "slug"
     then Legacy.getattr self2 "slug" = Some (VStr s)
     else Legacy.getattr self2 "title" = Some (VStr s)) /\
    Legacy.getattr p "title" = Legacy.getattr self2 "title" /\
    Legacy.Page_str p = Ok (VStr (slug_text s)).
Proof.
  unfold Legacy.Page_init, Legacy.Page_attrs. cbv zeta. intros H.
  bind_inv H selfa Ha. rewrite Ha. cbn [bind].
  bind_inv H text Ht. rewrite Ht. cbn [bind].
  bind_inv H ab Hab. rewrite Hab. cbn [bind]. destruct ab as [attrs body].
  bind_inv H self0 H0. bind_inv H self1 H1. bind_inv H self2 H2.
  bind_inv H self3 H3. bind_inv H slug Hslug.
  destruct slug as [| |s|]; try discriminate.
  bind_inv H self4 H4. bind_inv H c Hc. bind_inv H routes Hr.
  bind_inv H route Hroute.
  apply legacy_setattr_ok in Ha, H0, H4, H. subst selfa self0 self4 p.
  exists attrs,
    (Legacy.store
       (Legacy.store {| Legacy.page_class := cls; Legacy.page_dict := ∅ |}
          "no_index" (VBool no_index)) "_content" (VStr body)),
    self1, self2, s.
  split; [reflexivity|]. split; [reflexivity|]. split; [reflexivity|].
  split; [exact H1|].
  assert (H21 : Legacy.page_class self2 = Legacy.page_class self1 /\
                Legacy.page_dict self2 !! ("slug" : str)
                = Legacy.page_dict self1 !! ("slug" : str)).
  { revert H2. destruct (Legacy.hasattr self1 "title"); intros H2.
    - inversion H2. auto.
    - apply legacy_setattr_ok in H2. subst self2. split; [reflexivity|].
      unfold Legacy.store. cbn [Legacy.page_dict].
      apply lookup_insert_ne. str_neq. }
  split; [apply H21|]. split; [apply H21|].
  unfold Legacy.attribute in Hslug.
  destruct (Legacy.getattr self3 "slug") as [w|] eqn:Eg3; inversion Hslug; subst w.
  assert (H3' : (if Legacy.hasattr self2 "slug"
                 then Legacy.getattr self2 "slug" = Some (VStr s)
                 else Legacy.getattr self2 "title" = Some (VStr s)) /\
                Legacy.getattr self3 "title" = Legacy.getattr self2 "title").
  { revert H3. destruct (Legacy.hasattr self2 "slug"); intros H3.
    - inversion H3; subst self3. auto.
    - bind_inv H3 t Htt. apply legacy_setattr_ok in H3. subst self3.
      unfold Legacy.getattr, Legacy.store in Eg3. cbn [Legacy.page_dict] in Eg3.
      rewrite lookup_insert_eq in Eg3. inversion Eg3; subst t.
      unfold Legacy.attribute in Htt.
      destruct (Legacy.getattr self2 "title") as [w|] eqn:Et2;
        inversion Htt; subst w.
      split; [reflexivity|].
      rewrite legacy_getattr_store by str_neq. exact Et2. }
  split; [apply H3'|]. split.
  - rewrite !legacy_getattr_store by str_neq. apply H3'.
  - unfold Legacy.Page_str, Legacy.attribute.
    rewrite legacy_getattr_store by str_neq.
    unfold Legacy.getattr, Legacy.store. cbn [Legacy.page_dict].
    rewrite lookup_insert_eq. reflexivity.
Qed.

(** X21. A page whose document has no [slug] attribute and whose class
    defines no [slug] takes its slug from its title: the title is a
    string, and the slug is that string lower-cased, with [_] for each
    space and without [!], [[], []], [(], [)]. *)
Theorem legacy_slug_from_title (cls : Legacy.PageClass)
    (content_path : option str) (content : str) (no_index : bool)
    (attrs : list str) (p : Legacy.Page) :
  Legacy.Page_init read_text markdown cls content_path content no_index = Ok p ->
  Legacy.Page_attrs read_text cls content_path content no_index = Ok attrs ->
  Forall (fun a => Legacy.attr_name a <> Some ("slug" : str)) attrs ->
  Legacy.cls_dict cls !! ("slug" : str) = None ->
  exists t,
    Legacy.getattr p "title" = Some (VStr t) /\
    Legacy.Page_str p = Ok (VStr (slug_text t)).
Proof.
  intros H Hattrs Hall Hcls.
  destruct (legacy_init_slug_source _ _ _ _ _ H)
    as (attrs' & self0 & self1 & self2 & s
        & Ha & Hs0 & Hc0 & Hloop & Hc2 & Hs2 & Hsrc & Htitle & Hstr).
  rewrite Ha in Hattrs. inversion Hattrs; subst attrs'; clear Hattrs.
  destruct (legacy_set_attrs_other _ _ _ _ Hloop Hall) as [Hs1 Hc1].
  assert (Hno : Legacy.hasattr self2 "slug" = false).
  { unfold Legacy.hasattr, Legacy.getattr.
    rewrite Hs2, Hs1, Hs0, Hc2, Hc1, Hc0, Hcls. reflexivity. }
  rewrite Hno in Hsrc. exists s. split; [|exact Hstr].
  rewrite Htitle. exact Hsrc.
Qed.

End LegacyDefaults.

Lemma legacy_plain_text_page_witness :
  Legacy.Page_init no_files plain_markdown Legacy.Page_class None
    (joinlines ["  Just some text,"; "with a colon: here.  "]) false
  = Ok (Legacy.store
          (Legacy.store
             (Legacy.store
                (Legacy.store
                   (Legacy.store
                      {| Legacy.page_class := Legacy.Page_class;
                         Legacy.page_dict := ∅ |}
                      "no_index" (VBool false))
                   "_content"
                   (VStr (strip (joinlines ["  Just some text,";
                                            "with a colon: here.  "]))))
                "title" (VStr "Page"))
             "slug" (VStr "page"))
          "url" (VStr "/page")).
Proof.
  exact (legacy_plain_text_page no_files plain_markdown
           (joinlines ["  Just some text,"; "with a colon: here.  "]) false
           eq_refl).
Defined.

Lemma legacy_slug_from_title_witness :
  exists t,
    Legacy.getattr
      (legacy_page Legacy.Page_class
         (joinlines ["title: Hello (World)!"; ""; "Body text."]))
      "title" = Some (VStr t) /\
    Legacy.Page_str
      (legacy_page Legacy.Page_class
         (joinlines ["title: Hello (World)!"; ""; "Body text."]))
    = Ok (VStr (slug_text t)).
Proof.
  refine (legacy_slug_from_title no_files plain_markdown Legacy.Page_class None
            (joinlines ["title: Hello (World)!"; ""; "Body text."]) false
            [("title: Hello (World)!" : str)] _ eq_refl eq_refl _ eq_refl).
  constructor; [|constructor]. intros E. vm_compute in E. discriminate E.
Defined.

(** * Reserved names, slugs beyond Latin-1, empty content, malformed lines *)


Section ReservedNames.

Variable slugify : str -> str.


End ReservedNames.


(** The slug derivation on the wider alphabet is the one of [slug_text] on
    the characters they share. *)
Lemma wide_slug_text_narrow (s : str) :
  wide_slug_text (map Narrow s) = map Narrow (slug_text s).
Proof.
  unfold wide_slug_text, slug_text, re_sub_punct, replace, lower.
  induction s as [|c s IH]; [reflexivity|].
  cbn [map List.filter wchar_lower] in *.
  destruct (negb (is_slug_punct
                    (if Ascii.eqb (lower_char c) " " then "_"%char
                     else lower_char c))); cbn [map]; rewrite IH; reflexivity.
Qed.



(** Whatever the parser and the engine are, a page with a [content]
    attribute and a false template is rendered to what [markup] returns,
    without an error of [_render_content] itself. *)
Lemma render_with_content_no_template (slugify : str -> str)
    (get_template : Current.Env -> value -> result Current.Template)
    (render : Current.Template -> gmap str value -> result str)
    (parser_markup : Current.Page -> value -> result str)
    (self : Current.Page) (engine : option Current.Env)
    (kwargs : gmap str value) (template c : value) :
  Current.getattr self "template" = Some template ->
  truthy template = false ->
  Current.getattr self "content" = Some c ->
  Current._render_content slugify get_template render parser_markup
    self engine kwargs
  = Current.markup parser_markup self.
Proof.
  intros Ht Hf Hc. unfold Current._render_content, Current.attribute,
    Current.hasattr. rewrite Ht, Hc. cbn [bind]. rewrite Hf. reflexivity.
Qed.

(** C7. On the text ["title: A\ntags:x\nnote: y\n\nbody"] the parser
    raises nothing, but the malformed line [tags:x], which stands between
    two header lines, does not drop out of the attributes: it is returned
    in the attributes list, between the two. *)
Theorem parse_content_malformed_line_kept :
  Legacy.parse_content
    (joinlines ["title: A"; "tags:x"; "note: y"; ""; "body"])
  = Ok ([("title: A" : str); joinlines [""; "tags:x"; ""]; ("note: y" : str)],
        ("body" : str)) /\
  base_matcher ("tags:x" : str) = None /\
  In (joinlines [""; "tags:x"; ""])
     [("title: A" : str); joinlines [""; "tags:x"; ""]; ("note: y" : str)].
Proof. split; [reflexivity|]. split; [reflexivity|]. right. left. reflexivity. Qed.

Section ToDict.

Variable slugify : str -> str.

(** X14. What [to_dict] holds for a page that has no [template_vars]
    attribute of its own.  [title] and [slug] are the derived title and
    slug, whatever the attributes say; every other key comes from the
    [template_vars] of the class when they have it, and from the page's
    own attributes as they were before the slug was read when they do
    not. *)
Theorem to_dict_precedence (self self' : Current.Page) (d : gmap str value) :
  Current.page_dict self !! ("template_vars" : str) = None ->
  Current.to_dict slugify self = Ok (d, self') ->
  exists s,
    Current.slug slugify self = Ok (s, self') /\
    d !! ("title" : str) = Some (Current.title self) /\
    d !! ("slug" : str) = Some (VStr s) /\
    forall k : str, k <> "title" -> k <> "slug" ->
      d !! k =
      match match Current.cls_template_vars (Current.page_class self) with
            | Some tv => tv !! k
            | None => None
            end with
      | Some v => Some v
      | None => Current.page_dict self !! k
      end.
Proof.
  unfold Current.to_dict. intros Hno H. rewrite Hno in H.
  bind_inv H tv Htv. bind_inv H sp Hs. destruct sp as [s self1].
  inversion H; subst d self'; clear H.
  exists s. split; [exact Hs|]. split; [|split].
  - rewrite lookup_insert_ne by str_neq. apply lookup_insert_eq.
  - apply lookup_insert_eq.
  - intros k Hk1 Hk2.
    rewrite lookup_insert_ne by (intros E; apply Hk2; symmetry; exact E).
    rewrite lookup_insert_ne by (intros E; apply Hk1; symmetry; exact E).
    rewrite lookup_union.
    destruct (Current.cls_template_vars (Current.page_class self)) as [tv'|];
      inversion Htv; subst tv.
    + destruct (tv' !! k), (Current.page_dict self !! k); reflexivity.
    + rewrite lookup_empty.
      destruct (Current.page_dict self !! k); reflexivity.
Qed.

End ToDict.

Lemma to_dict_precedence_witness :
  exists s,
    Current.slug sample_slugify
      (Current.store bare_page "_slug" (VStr "My Custom Slug"))
    = Ok (s, Current.store bare_page "_slug" (VStr "My Custom Slug")) /\
    (<[("slug" : str) := VStr "my-custom-slug"]>
       (<[("title" : str) := VStr "Page"]>
          (<[("_slug" : str) := VStr "My Custom Slug"]> ∅)) : gmap str value)
      !! ("title" : str)
    = Some (Current.title
              (Current.store bare_page "_slug" (VStr "My Custom Slug"))) /\
    (<[("slug" : str) := VStr "my-custom-slug"]>
       (<[("title" : str) := VStr "Page"]>
          (<[("_slug" : str) := VStr "My Custom Slug"]> ∅)) : gmap str value)
      !! ("slug" : str) = Some (VStr s) /\
    forall k : str, k <> "title" -> k <> "slug" ->
      (<[("slug" : str) := VStr "my-custom-slug"]>
         (<[("title" : str) := VStr "Page"]>
            (<[("_slug" : str) := VStr "My Custom Slug"]> ∅)) : gmap str value)
        !! k
      = match match Current.cls_template_vars
                      (Current.page_class
                         (Current.store bare_page "_slug"
                            (VStr "My Custom Slug"))) with
              | Some tv => tv !! k
              | None => None
              end with
        | Some v => Some v
        | None =>
            Current.page_dict
              (Current.store bare_page "_slug" (VStr "My Custom Slug")) !! k
        end.
Proof.
  exact (to_dict_precedence sample_slugify
           (Current.store bare_page "_slug" (VStr "My Custom Slug"))
           _ _ eq_refl eq_refl).
Defined.

(** The same text given to [Page.__init__]: the malformed line that the
    parser returned among the attributes has no [": "], and the
    constructor raises [ValueError]. *)
Example legacy_malformed_line_raises (rt : str -> result str)
    (md : str -> str) :
  Legacy.Page_init rt md Legacy.Page_class None
    (joinlines ["title: A"; "tags:x"; "note: y"; ""; "body"]) false
  = Raise ValueError.
Proof. reflexivity. Qed.
